(** * mailman-rss: a shallow embedding of [mailman_rss.py]

    The program turns a Mailman (pipermail) archive into an RSS 2.0 feed.
    This development embeds its functions as Rocq definitions and proves
    properties of them.

    Conventions.
    - A Python [str] is a [string]: the sequence of its code points, for
      text whose code points are below 256 (Latin-1).  On these [\w],
      [\d], [\s], [str.lower] and [str.strip] are those of Python 3,
      which knows the letters, digits and spaces of Unicode.
    - [None] is [None]; Python truthiness of an optional string is [truthy].
    - An exception is a value of [result]; code that prints and may raise
      lives in the writer monad [Out]; code that touches the file system
      and the network lives in the state monad [IO].
    - Functions of the Python standard library and of BeautifulSoup that
      the program only calls are fields of the record [Library]; every
      theorem holds for every library. *)

From Stdlib Require Import ZArith List String Ascii Bool DecimalString Lia.
From stdpp Require Import base gmap strings list.

(** ** Exceptions and results *)

Inductive exn : Type :=
  | IndexError
  | AttributeError
  | TypeError
  | ValueError
  | OverflowError
  | LibraryError (origin : string).

Inductive result (A : Type) : Type :=
  | Ok (a : A)
  | Raise (e : exn).

Arguments Ok {A} a.
Arguments Raise {A} e.

Definition is_ok {A : Type} (r : result A) : bool :=
  match r with Ok _ => true | Raise _ => false end.

(** ** Characters *)

Definition dquote : ascii := "034"%char.
Definition newline : ascii := "010"%char.

Definition DQ : string := String dquote EmptyString.
Definition NL : string := String newline EmptyString.

Definition in_range (lo hi : nat) (c : ascii) : bool :=
  (lo <=? nat_of_ascii c) && (nat_of_ascii c <=? hi).

(** [str.isspace]: TAB, LF, VT, FF, CR, FS, GS, RS, US, SPACE, and in
    the upper half NEL (133) and the no-break space (160).  The regular
    expression class [\s] is the same set. *)
Definition is_space (c : ascii) : bool :=
  in_range 9 13 c || in_range 28 32 c ||
  in_range 133 133 c || in_range 160 160 c.

(** The class [\d]: the decimal digits; below 256 these are [0] to [9]. *)
Definition is_digit (c : ascii) : bool := in_range 48 57 c.

(** The class [\w]: the underscore and what [str.isalnum] accepts.  In
    the upper half these are the letters (170, 181, 186, 192 to 255
    without the signs 215 and 247) and the numeric characters (the
    superscripts 178, 179, 185 and the fractions 188 to 190). *)
Definition is_word (c : ascii) : bool :=
  in_range 97 122 c || in_range 65 90 c || is_digit c || Ascii.eqb c "_" ||
  in_range 170 170 c || in_range 178 179 c || in_range 181 181 c ||
  in_range 185 186 c || in_range 188 190 c ||
  in_range 192 214 c || in_range 216 246 c || in_range 248 255 c.

Definition is_dash (c : ascii) : bool := Ascii.eqb c "-".

(** [str.lower] on one character: the capital letters are [A] to [Z] and,
    in the upper half, 192 to 222 without the sign 215. *)
Definition lower_char (c : ascii) : ascii :=
  if in_range 65 90 c || in_range 192 214 c || in_range 216 222 c
  then ascii_of_nat (nat_of_ascii c + 32) else c.

(** ** Strings: the [str] methods the program calls *)

(** Truthiness of an optional string: [None] and the empty string are
    false. *)
Definition truthy (o : option string) : bool :=
  match o with
  | Some (String _ _) => true
  | _ => false
  end.

Definition nonempty (s : string) : bool :=
  match s with EmptyString => false | String _ _ => true end.

Fixpoint lower (s : string) : string :=
  match s with
  | EmptyString => EmptyString
  | String c s' => String (lower_char c) (lower s')
  end.

(** [s.startswith(p)] *)
Definition startswith (s p : string) : bool := String.prefix p s.

(** [sub in s] *)
Fixpoint contains (sub s : string) : bool :=
  String.prefix sub s ||
  match s with
  | EmptyString => false
  | String _ s' => contains sub s'
  end.

Fixpoint drop_chars (n : nat) (s : string) : string :=
  match n, s with
  | S k, String _ s' => drop_chars k s'
  | _, _ => s
  end.

(** [s.replace(old, new)] for a non-empty [old]: the occurrences are
    replaced from left to right and do not overlap.  [skip] counts the
    characters of the current occurrence that are still to be dropped. *)
Fixpoint replace_from (old new : string) (skip : nat) (s : string) : string :=
  match s with
  | EmptyString => EmptyString
  | String c s' =>
      match skip with
      | S k => replace_from old new k s'
      | O =>
          if String.prefix old s
          then new +:+ replace_from old new (String.length old - 1) s'
          else String c (replace_from old new 0 s')
      end
  end.

Definition replace (old new s : string) : string := replace_from old new 0 s.

Fixpoint lstrip (p : ascii -> bool) (s : string) : string :=
  match s with
  | EmptyString => EmptyString
  | String c s' => if p c then lstrip p s' else s
  end.

Fixpoint rstrip (p : ascii -> bool) (s : string) : string :=
  match s with
  | EmptyString => EmptyString
  | String c s' =>
      match rstrip p s' with
      | EmptyString => if p c then EmptyString else String c EmptyString
      | r => String c r
      end
  end.

(** [s.strip()] *)
Definition strip (s : string) : string := rstrip is_space (lstrip is_space s).

(** [s.strip("<>")] *)
Definition is_angle (c : ascii) : bool := Ascii.eqb c "<" || Ascii.eqb c ">".
Definition strip_angles (s : string) : string :=
  rstrip is_angle (lstrip is_angle s).

(** Longest prefix of characters in the class [p], and the rest. *)
Fixpoint span (p : ascii -> bool) (s : string) : string * string :=
  match s with
  | EmptyString => (EmptyString, EmptyString)
  | String c s' =>
      if p c then let (a, b) := span p s' in (String c a, b)
      else (EmptyString, s)
  end.

(** [s.split(":", 1)]: one element when there is no colon, else two. *)
Fixpoint split_colon_once (s : string) : list string :=
  match s with
  | EmptyString => [EmptyString]
  | String c s' =>
      if Ascii.eqb c ":" then [EmptyString; s']
      else match split_colon_once s' with
           | [] => [String c EmptyString]
           | h :: t => String c h :: t
           end
  end.

(** [io.StringIO(s).readlines()]: the lines of [s], each with its
    terminating line feed when it has one. *)
Fixpoint readlines (s : string) : list string :=
  match s with
  | EmptyString => []
  | String c s' =>
      if Ascii.eqb c newline then String c EmptyString :: readlines s'
      else match readlines s' with
           | [] => [String c EmptyString]
           | l :: ls => String c l :: ls
           end
  end.

(** [cgi.escape(s)] with its default [quote=False]: three replacements,
    the ampersand first; the double quote is left alone. *)
Definition cgi_escape (s : string) : string :=
  replace ">" "&gt;" (replace "<" "&lt;" (replace "&" "&amp;" s)).

(** ** Numbers: [int], [{:06d}] and [time.strftime] *)

Definition digit_value (c : ascii) : Z := Z.of_nat (nat_of_ascii c - 48).

(** [int(s)] for a string of decimal digits. *)
Definition int_of_digits (s : string) : Z :=
  fold_left (fun (acc : Z) c => (10 * acc + digit_value c)%Z)
    (list_ascii_of_string s) 0%Z.

(** [str(n)] for a natural number. *)
Definition decimal (n : N) : string := NilZero.string_of_uint (N.to_uint n).

Fixpoint zeros (n : nat) : string :=
  match n with
  | O => EmptyString
  | S k => String "0" (zeros k)
  end.

(** Zero fill on the left up to [width] characters; longer strings are
    kept whole. *)
Definition zfill (width : nat) (s : string) : string :=
  zeros (width - String.length s) +:+ s.

(** ["{:06d}".format(z)]: minimum width 6, zeros after the sign. *)
Definition format_06d (z : Z) : string :=
  if (z <? 0)%Z then "-" +:+ zfill 5 (decimal (Z.abs_N z))
  else zfill 6 (decimal (Z.to_N z)).

Inductive Month : Type :=
  | January | February | March | April | May | June
  | July | August | September | October | November | December.

(** [%B] in the C locale. *)
Definition month_name (m : Month) : string :=
  match m with
  | January => "January" | February => "February" | March => "March"
  | April => "April" | May => "May" | June => "June"
  | July => "July" | August => "August" | September => "September"
  | October => "October" | November => "November" | December => "December"
  end.

(** The time tuple returned by [email.utils.parsedate].  The month comes
    from a month name, so it is one of the twelve; year, day, hour,
    minute and second are what [int] read and are not checked by
    [parsedate]; the last three entries of the tuple are always 0, 1
    and -1. *)
Record struct_time : Type := {
  tm_year : Z;
  tm_mon : Month;
  tm_mday : Z;
  tm_hour : Z;
  tm_min : Z;
  tm_sec : Z;
}.

(** [str(z)] for an integer. *)
Definition decimal_Z (z : Z) : string :=
  if (z <? 0)%Z then "-" +:+ decimal (Z.abs_N z) else decimal (Z.to_N z).

(** The values of a C [int]. *)
Definition is_c_int (z : Z) : bool :=
  (-2147483648 <=? z)%Z && (z <=? 2147483647)%Z.

Definition between (lo hi z : Z) : bool := (lo <=? z)%Z && (z <=? hi)%Z.

(** [time.strftime("%Y-%B", t)] in CPython 3.  The tuple is first read
    into a C [struct tm]: an entry that is no C [int], or a year below
    [INT_MIN + 1900], raises [OverflowError].  Then the entries are
    checked: a day of the month outside 0 to 31, an hour outside 0 to 23,
    a minute outside 0 to 59 or a second outside 0 to 61 raises
    [ValueError].  The C library then prints the year as it is, without
    padding, and the month name of the C locale. *)
Definition strftime_Y_B (t : struct_time) : result string :=
  if negb (is_c_int (tm_year t) && is_c_int (tm_mday t) &&
           is_c_int (tm_hour t) && is_c_int (tm_min t) &&
           is_c_int (tm_sec t) && (-2147483648 + 1900 <=? tm_year t)%Z)
  then Raise OverflowError
  else if negb (between 0 31 (tm_mday t) && between 0 23 (tm_hour t) &&
                between 0 59 (tm_min t) && between 0 61 (tm_sec t))
  then Raise ValueError
  else Ok (decimal_Z (tm_year t) +:+ "-" +:+ month_name (tm_mon t)).

(** ** The two regular expressions *)

(** [re.match(r'\[\w+ (\d+)\].*', s)], returning group 1.  [re.match]
    anchors at the start only and the final [.*] may match nothing, so the
    match is decided by the bracketed prefix.  A word character is no
    space and a digit is no closing bracket, hence the greedy runs are the
    only candidates ([match_subject_iff] relates the function to the
    pattern read as a set of strings).  [expect c s] reads the character
    [c] at the head of [s]. *)
Definition expect (c : ascii) (s : string) : option string :=
  match s with
  | String x r => if Ascii.eqb x c then Some r else None
  | EmptyString => None
  end.

Definition match_subject (s : string) : option string :=
  match expect "[" s with
  | Some r =>
      let (w, r1) := span is_word r in
      match expect " " r1 with
      | Some r2 =>
          let (d, r3) := span is_digit r2 in
          match expect "]" r3 with
          | Some _ => if nonempty w && nonempty d then Some d else None
          | None => None
          end
      | None => None
      end
  | None => None
  end.

(** [$] with [re.MULTILINE]: the end of the string or just before a line
    feed. *)
Definition at_eol (s : string) : bool :=
  match s with
  | EmptyString => true
  | String c _ => Ascii.eqb c newline
  end.

(** One match of [-+\s+next part\s+-+$] at the head of [s]; the result is
    what follows the match. *)
Definition match_next_part (s : string) : option string :=
  let (d1, r1) := span is_dash s in
  let (w1, r2) := span is_space r1 in
  if nonempty d1 && nonempty w1 && String.prefix "next part" r2 then
    let r3 := drop_chars 9 r2 in
    let (w2, r4) := span is_space r3 in
    let (d2, r5) := span is_dash r4 in
    if nonempty w2 && nonempty d2 && at_eol r5 then Some r5 else None
  else None.

(** [re.split(re.compile("^-+\s+next part\s+-+$", re.MULTILINE), s)].
    [bol] says that the position is the start of a line ([^] with
    [re.MULTILINE]); [skip] counts the characters of the current match
    still to be dropped.  The head of the result is the piece being read. *)
Fixpoint split_from (bol : bool) (skip : nat) (s : string) : list string :=
  match s with
  | EmptyString => [EmptyString]
  | String c s' =>
      match skip with
      | S k => split_from false k s'
      | O =>
          match (if bol then match_next_part s else None) with
          | Some r =>
              EmptyString ::
                split_from false (String.length s - String.length r - 1) s'
          | None =>
              match split_from (Ascii.eqb c newline) 0 s' with
              | [] => [String c EmptyString]
              | h :: t => String c h :: t
              end
          end
      end
  end.

Definition split_next_part (body : string) : list string :=
  split_from true 0 body.


(** ** Messages and the archive index *)

#[local] Set Warnings "-register-all".

(** The payload of an [email.message.Message]: a string, or the list of
    sub-messages of a multipart message. *)
Inductive Payload : Type :=
  | Text (s : string)
  | Multipart (subparts : list Payload).

(** A message of the mailbox, as [printrss] reads it: [mail.get(h)] for
    the four headers, and the payload. *)
Record Message : Type := {
  date : option string;
  from : option string;
  subject : option string;
  message_id : option string;
  payload : Payload;
}.

(** A BeautifulSoup parse tree. *)
Inductive Node : Type :=
  | NavigableString (s : string)
  | Tag (name : string) (attrs : list (string * string)) (contents : list Node).

(** [tag.descendants], preceded by the tag itself: document order. *)
Fixpoint self_and_descendants (n : Node) : list Node :=
  n :: match n with
       | NavigableString _ => []
       | Tag _ _ cs => List.flat_map self_and_descendants cs
       end.

Definition is_tag_named (name : string) (n : Node) : bool :=
  match n with
  | NavigableString _ => false
  | Tag nm _ _ => String.eqb nm name
  end.

(** [tag.name], that is [tag.find(name)]: the first descendant tag of
    that name, or [None]. *)
Definition child_tag (name : string) (n : Node) : option Node :=
  match n with
  | NavigableString _ => None
  | Tag _ _ cs =>
      List.find (is_tag_named name) (List.flat_map self_and_descendants cs)
  end.

(** [tag.string]: the text of a tag whose only child is a string, looking
    through single-child tags; [None] otherwise. *)
Fixpoint tag_string (n : Node) : option string :=
  match n with
  | NavigableString s => Some s
  | Tag _ _ [c] => tag_string c
  | Tag _ _ _ => None
  end.

(** [x.a] on an optional tag: [None.a] raises [AttributeError]. *)
Definition getattr_tag (name : string) (o : option Node) : result (option Node) :=
  match o with
  | None => Raise AttributeError
  | Some n => Ok (child_tag name n)
  end.

Definition getattr_string (o : option Node) : result (option string) :=
  match o with
  | None => Raise AttributeError
  | Some n => Ok (tag_string n)
  end.

(** An instance of [MailmanArchive]. *)
Record MailmanArchive : Type := {
  archive_url : string;
  _soup : Node;
}.

(** [MailmanArchive.get_title]: [self._soup.html.head.title.string] *)
Definition get_title (self : MailmanArchive) : result (option string) :=
  match getattr_tag "html" (Some (_soup self)) with
  | Raise e => Raise e
  | Ok html =>
      match getattr_tag "head" html with
      | Raise e => Raise e
      | Ok head =>
          match getattr_tag "title" head with
          | Raise e => Raise e
          | Ok title => getattr_string title
          end
      end
  end.

(** ** The library *)

(** What the program calls and does not define.  A call that may raise
    returns a [result]. *)
Record Library : Type := {
  (** [email.utils.formatdate()], the time of the run *)
  formatdate : string;
  (** [email.utils.parsedate] *)
  parsedate : string -> option struct_time;
  (** [str(make_header(decode_header(s)))] *)
  decode_header : string -> result string;
  (** [urlparse(url).netloc] *)
  urlparse_netloc : string -> result string;
  (** [urlopen(url).read()] *)
  urlopen_read : string -> result string;
  (** [gzip.GzipFile(fileobj=io.BytesIO(data)).read()] *)
  gunzip : string -> result string;
  (** [mailbox.mbox(path)] on a file with the given content, as the list
      of the raw messages of the mailbox *)
  mbox_open : string -> result (list string);
  (** [mailbox.mboxMessage(raw.decode(encoding))] *)
  decode_message : string -> string -> result Message;
  (** [BeautifulSoup(page, "html.parser")] *)
  html_parser : string -> Node;
}.

(** ** Printing: a writer monad with exceptions *)

(** The lines printed so far (one per call of [print]) and the outcome. *)
Definition Out (A : Type) : Type := (list string * result A)%type.

Definition out_ret {A : Type} (a : A) : Out A := ([], Ok a).

Definition out_bind {A B : Type} (m : Out A) (k : A -> Out B) : Out B :=
  match m with
  | (l1, Ok a) => let (l2, r) := k a in (l1 ++ l2, r)
  | (l1, Raise e) => (l1, Raise e)
  end.

(** [print(s, file=fp)] *)
Definition print (s : string) : Out unit := ([s], Ok tt).

(** A call that may raise and prints nothing. *)
Definition lift {A : Type} (r : result A) : Out A := ([], r).

Definition when (b : bool) (m : Out unit) : Out unit :=
  if b then m else out_ret tt.

Declare Scope out_scope.
Delimit Scope out_scope with out.
Notation "x <- m ;; k" := (out_bind m (fun x => k))
  (at level 100, m at next level, right associativity) : out_scope.
Notation "m ;; k" := (out_bind m (fun _ => k))
  (at level 100, right associativity) : out_scope.

(** [for x in l: body(x)] *)
Fixpoint for_each {A : Type} (body : A -> Out unit) (l : list A) : Out unit :=
  match l with
  | [] => out_ret tt
  | x :: l' => (body x ;; for_each body l')%out
  end.

Definition lines {A : Type} (m : Out A) : list string := fst m.
Definition outcome {A : Type} (m : Out A) : result A := snd m.

Definition element (tag content : string) : string :=
  "<" +:+ tag +:+ ">" +:+ content +:+ "</" +:+ tag +:+ ">".

(** ** [get_part_field] *)

(** The first line of [part] whose lower-case form starts with [name]
    decides: the result is what follows its first colon, stripped.
    [parts[1]] raises [IndexError] when that line has no colon; without
    such a line the function returns [None]. *)
Fixpoint scan_lines (ls : list string) (name : string) : result (option string) :=
  match ls with
  | [] => Ok None
  | line :: ls' =>
      if startswith (lower line) name then
        match split_colon_once line with
        | _ :: v :: _ => Ok (Some (strip v))
        | _ => Raise IndexError
        end
      else scan_lines ls' name
  end.

Definition get_part_field (part name : string) : result (option string) :=
  scan_lines (readlines part) name.

(** ** [printrss] *)

(** The string of an optional string that is known to be truthy. *)
Definition the (o : option string) : string :=
  match o with Some s => s | None => EmptyString end.

Definition xml_declaration : string :=
  "<?xml version=" +:+ DQ +:+ "1.0" +:+ DQ +:+
  " encoding=" +:+ DQ +:+ "UTF-8" +:+ DQ +:+ " ?>".

Definition rss_open : string := "<rss version=" +:+ DQ +:+ "2.0" +:+ DQ +:+ ">".

Definition guid_line (content : string) : string :=
  "<guid isPermaLink=" +:+ DQ +:+ "false" +:+ DQ +:+ ">" +:+ content +:+ "</guid>".

Definition description_line (body : string) : string :=
  "<description><![CDATA[" +:+ body +:+ "]]></description>".

Definition enclosure_line (url size mime_type : string) : string :=
  "<enclosure url=" +:+ DQ +:+ url +:+ DQ +:+
  " length=" +:+ DQ +:+ size +:+ DQ +:+
  " type=" +:+ DQ +:+ mime_type +:+ DQ +:+ " />".

Definition scrubbed_marker : string := "A non-text attachment was scrubbed".

(** Lines 180-186: the body text that [re.split] receives.  When
    [mail.is_multipart()] holds, [mail.get_payload(0)] is the first
    sub-message (or raises [IndexError] when there is none), and
    [re.split] raises [TypeError] on a value that is no string. *)
Definition body_text (mail : Message) : result string :=
  match payload mail with
  | Text s => Ok s
  | Multipart [] => Raise IndexError
  | Multipart (_ :: _) => Raise TypeError
  end.

Section Printing.

Variable lib : Library.
Variable archive : MailmanArchive.

Local Open Scope out_scope.

(** Lines 192-204: one round of the loop over [parts[1:]]. *)
Definition print_enclosure (part : string) : Out unit :=
  if negb (contains scrubbed_marker part) then out_ret tt
  else
    mime_type <- lift (get_part_field part "type") ;;
    size <- lift (get_part_field part "size") ;;
    url <- lift (get_part_field part "url") ;;
    when (truthy mime_type && truthy size && truthy url)
      (netloc <- lift (urlparse_netloc lib (the url)) ;;
       when (nonempty netloc)
         (print (enclosure_line (the url) (the size) (the mime_type)))).

(** Lines 148-154: the channel's [pubDate], printed while
    [pubdate_rendered] is false. *)
Definition print_channel_pubdate (mail : Message) : Out unit :=
  if truthy (date mail)
  then print (element "pubDate" (cgi_escape (the (date mail))))
  else print (element "pubDate" (cgi_escape (formatdate lib))).

(** Line 163: [date] after [if date: ... date = parsedate(date)]. *)
Definition parsed_date (mail : Message) : option struct_time :=
  if truthy (date mail) then parsedate lib (the (date mail)) else None.

(** Lines 170-172, with [segment] the text of [time.strftime]. *)
Definition permalink (segment number : string) : string :=
  archive_url archive +:+ segment +:+ "/" +:+
  format_06d (int_of_digits number - 1) +:+ ".html".

(** Lines 165-173 *)
Definition print_title_and_link (mail : Message) : Out unit :=
  when (truthy (subject mail))
    (title <- lift (decode_header lib (cgi_escape (the (subject mail)))) ;;
     print (element "title" title) ;;
     match parsed_date mail, match_subject title with
     | Some t, Some number =>
         segment <- lift (strftime_Y_B t) ;;
         print (element "link" (permalink segment number))
     | _, _ => out_ret tt
     end).

(** Lines 156-206: one item. *)
Definition print_item (mail : Message) : Out unit :=
  print "<item>" ;;
  when (truthy (from mail))
    (print (element "author"
              (cgi_escape (replace " at " "@" (the (from mail)))))) ;;
  when (truthy (date mail))
    (print (element "pubDate" (cgi_escape (the (date mail))))) ;;
  print_title_and_link mail ;;
  when (truthy (message_id mail))
    (print (guid_line (cgi_escape (strip_angles (the (message_id mail)))))) ;;
  body <- lift (body_text mail) ;;
  let parts := List.map strip (split_next_part body) in
  print (description_line (replace NL "<br/>" (hd EmptyString parts))) ;;
  for_each print_enclosure (tl parts) ;;
  print "</item>".

(** Lines 142-206: the loop over the mails, with its flag. *)
Fixpoint mail_loop (pubdate_rendered : bool) (mails : list Message) : Out unit :=
  match mails with
  | [] => out_ret tt
  | mail :: rest =>
      when (negb pubdate_rendered) (print_channel_pubdate mail) ;;
      print_item mail ;;
      mail_loop true rest
  end.

(** Lines 127-138 *)
Definition print_channel_head : Out unit :=
  print xml_declaration ;;
  print rss_open ;;
  print "<channel>" ;;
  print (element "language" (cgi_escape "ja-JP")) ;;
  title <- lift (get_title archive) ;;
  when (truthy title)
    (print (element "title" (cgi_escape (the title))) ;;
     print (element "description" (cgi_escape (the title)))) ;;
  print (element "link" (cgi_escape (archive_url archive))).

Definition printrss (mails : list Message) : Out unit :=
  print_channel_head ;;
  mail_loop false mails ;;
  print "</channel>" ;;
  print "</rss>".

End Printing.

(** ** The file system and the network: a state monad with exceptions *)

(** The temporary directory maps a file name to the file's content;
    [fetched] is the list of the URLs that were opened, oldest first. *)
Record World : Type := {
  files : gmap nat string;
  fetched : list string;
}.

Definition IO (A : Type) : Type := World -> World * result A.

Definition io_ret {A : Type} (a : A) : IO A := fun w => (w, Ok a).

Definition io_bind {A B : Type} (m : IO A) (k : A -> IO B) : IO B :=
  fun w =>
    match m w with
    | (w', Ok a) => k a w'
    | (w', Raise e) => (w', Raise e)
    end.

Definition io_lift {A : Type} (r : result A) : IO A := fun w => (w, r).

Declare Scope io_scope.
Delimit Scope io_scope with io.
Notation "x <- m ;; k" := (io_bind m (fun x => k))
  (at level 100, m at next level, right associativity) : io_scope.
Notation "m ;; k" := (io_bind m (fun _ => k))
  (at level 100, right associativity) : io_scope.

(** [tempfile.mkstemp()]: a new, empty file under a name not in use. *)
Definition mkstemp : IO nat :=
  fun w =>
    let name := fresh (dom (files w)) in
    ({| files := <[name := EmptyString]> (files w); fetched := fetched w |},
     Ok name).

(** [fd.write(data); fd.close()] on the file called [name]. *)
Definition write_file (name : nat) (data : string) : IO unit :=
  fun w =>
    ({| files := <[name := data]> (files w); fetched := fetched w |}, Ok tt).

(** [os.remove(name)] *)
Definition os_remove (name : nat) : IO unit :=
  fun w =>
    match files w !! name with
    | Some _ =>
        ({| files := delete name (files w); fetched := fetched w |}, Ok tt)
    | None => (w, Raise (LibraryError "os.remove"))
    end.

(** [archive_url[-1]] *)
Fixpoint last_char (s : string) : result ascii :=
  match s with
  | EmptyString => Raise IndexError
  | String c EmptyString => Ok c
  | String _ s' => last_char s'
  end.

(** [[f(x) for x in l]], stopping at the first exception. *)
Fixpoint map_result {A B : Type} (f : A -> result B) (l : list A) : result (list B) :=
  match l with
  | [] => Ok []
  | x :: l' =>
      match f x with
      | Raise e => Raise e
      | Ok y =>
          match map_result f l' with
          | Raise e => Raise e
          | Ok ys => Ok (y :: ys)
          end
      end
  end.

(** [l[:n]] *)
Definition slice_to (n : Z) {A : Type} (l : list A) : list A :=
  if (n <? 0)%Z then take (Z.to_nat (Z.of_nat (length l) + n)) l
  else take (Z.to_nat n) l.

Section Loading.

Variable lib : Library.

Local Open Scope io_scope.

(** [fetch(url)] *)
Definition fetch (url : string) : IO string :=
  fun w =>
    ({| files := files w; fetched := fetched w ++ [url] |},
     urlopen_read lib url).

(** [mailbox.mbox(name)]: the mailbox of the file called [name]. *)
Definition open_mbox (name : nat) : IO (list string) :=
  fun w =>
    match files w !! name with
    | Some content => (w, mbox_open lib content)
    | None => (w, Raise (LibraryError "mailbox.mbox"))
    end.

(** [MailmanArchive.__init__] *)
Definition MailmanArchive_init (url : string) : IO MailmanArchive :=
  c <- io_lift (last_char url) ;;
  let url := if negb (Ascii.eqb c "/") then url +:+ "/" else url in
  archive <- fetch url ;;
  io_ret {| archive_url := url; _soup := html_parser lib archive |}.

(** [MailmanArchive.get_month] *)
Definition get_month (url : string) : IO (list string) :=
  data_gz <- fetch url ;;
  tmpfile <- mkstemp ;;
  data <- io_lift (gunzip lib data_gz) ;;
  write_file tmpfile data ;;
  mbox <- open_mbox tmpfile ;;
  os_remove tmpfile ;;
  io_ret mbox.

(** Lines 229-247 of [main]: the loop over [months].  [encoding] and
    [count] are [options.encoding] and [options.count]. *)
Fixpoint month_loop (encoding : string) (count : Z)
    (months : list string) (mails : list Message) : IO (list Message) :=
  match months with
  | [] => io_ret mails
  | month_url :: rest =>
      mbox <- get_month month_url ;;
      month <- io_lift (map_result (decode_message lib encoding) mbox) ;;
      let mails := mails ++ rev month in
      if (Z.of_nat (length mails) >=? count)%Z then io_ret mails
      else month_loop encoding count rest mails
  end.

(** Lines 249-251: trim to [count] entries. *)
Definition trim (count : Z) (mails : list Message) : list Message :=
  if (Z.of_nat (length mails) >? count)%Z then slice_to count mails else mails.

(** Lines 227-251: the mails handed to [printrss]. *)
Definition select_mails (encoding : string) (count : Z)
    (months : list string) : IO (list Message) :=
  mails <- month_loop encoding count months [] ;;
  io_ret (trim count mails).

End Loading.

(** ** A library for the examples *)

Module Example.

(** [urlparse(url).netloc] after CPython's [urlsplit]: a scheme is a
    letter followed by letters, digits, [+], [-] and [.] up to the first
    colon; the network location is what lies between a leading [//] and
    the next [/], [?] or [#]; a bracket without its partner raises
    [ValueError]. *)
Definition is_alpha (c : ascii) : bool := in_range 97 122 c || in_range 65 90 c.

Definition is_scheme_char (c : ascii) : bool :=
  is_alpha c || is_digit c || Ascii.eqb c "+" || Ascii.eqb c "-" || Ascii.eqb c ".".

Definition is_netloc_char (c : ascii) : bool :=
  negb (Ascii.eqb c "/" || Ascii.eqb c "?" || Ascii.eqb c "#").

Definition after_scheme (url : string) : string :=
  match url with
  | String c _ =>
      if is_alpha c then
        match span is_scheme_char url with
        | (_, String ":" rest) => rest
        | _ => url
        end
      else url
  | EmptyString => url
  end.

Definition netloc (url : string) : result string :=
  match after_scheme url with
  | String "/" (String "/" rest) =>
      let loc := fst (span is_netloc_char rest) in
      if xorb (contains "[" loc) (contains "]" loc) then Raise ValueError
      else Ok loc
  | _ => Ok EmptyString
  end.

(** A date header and the time tuple [parsedate] returns for it. *)
Definition april_date : string := "Wed, 01 Apr 2020 10:00:00 +0000".

Definition parse (s : string) : option struct_time :=
  if String.eqb s april_date
  then Some {| tm_year := 2020; tm_mon := April; tm_mday := 1;
               tm_hour := 10; tm_min := 0; tm_sec := 0 |}
  else None.

(** Two month archives.  The stand-ins for [gzip] and [mailbox]: a
    compressed file is its content after the two magic bytes, a mailbox
    holds one message per line, and a message is its subject. *)
Definition gzip_magic : string :=
  String (ascii_of_nat 31) (String (ascii_of_nat 139) EmptyString).

Definition base : string := "http://lists.example.org/pipermail/dev/".
Definition month1 : string := base +:+ "2020-April.txt.gz".
Definition month2 : string := base +:+ "2020-March.txt.gz".
Definition month3 : string := base +:+ "2020-February.txt.gz".
Definition broken_month : string := base +:+ "2020-January.txt.gz".

Definition open_url (url : string) : result string :=
  if String.eqb url base then Ok "<html><head></head></html>"
  else if String.eqb url month1
  then Ok (gzip_magic +:+ "a" +:+ NL +:+ "b" +:+ NL +:+ "c" +:+ NL)
  else if String.eqb url month2
  then Ok (gzip_magic +:+ "d" +:+ NL +:+ "e" +:+ NL)
  else if String.eqb url month3
  then Ok (gzip_magic +:+ "f" +:+ NL)
  else if String.eqb url broken_month
  then Ok "<html>404 Not Found</html>"
  else Raise (LibraryError "urlopen").

Definition stored_gunzip (data : string) : result string :=
  if String.prefix gzip_magic data then Ok (drop_chars 2 data)
  else Raise (LibraryError "gzip").

Definition titled (s : string) : Message :=
  {| date := None; from := None; subject := Some s; message_id := None;
     payload := Text EmptyString |}.

Definition dated (body : string) : Message :=
  {| date := Some april_date; from := None; subject := None;
     message_id := None; payload := Text body |}.

Definition posted (s : string) : Message :=
  {| date := Some april_date; from := Some "jane at example.org";
     subject := Some s; message_id := Some "<abc123@host>";
     payload := Text "Hello" |}.

Definition lib : Library :=
  {| formatdate := "Wed, 04 Nov 2026 09:00:00 -0000";
     parsedate := parse;
     decode_header := Ok;
     urlparse_netloc := netloc;
     urlopen_read := open_url;
     gunzip := stored_gunzip;
     mbox_open := fun content => Ok (readlines content);
     decode_message := fun _ raw => Ok (titled (strip raw));
     html_parser := fun _ => Tag "[document]" [] [] |}.

Definition world0 : World := {| files := ∅; fetched := [] |}.

(** An index page with a head and no title, and one with a title. *)
Definition untitled_page : Node :=
  Tag "[document]" []
    [Tag "html" [] [Tag "head" [] []; Tag "body" [] [NavigableString "x"]]].

Definition titled_page (t : string) : Node :=
  Tag "[document]" []
    [Tag "html" [] [Tag "head" [] [Tag "title" [] [NavigableString t]]]].

Definition archive (t : string) : MailmanArchive :=
  {| archive_url := base; _soup := titled_page t |}.

Definition notice (url : string) : string :=
  scrubbed_marker +:+ "..." +:+ NL +:+
  "Name: x.png" +:+ NL +:+
  "Type: image/png" +:+ NL +:+
  "Size: 12345 bytes" +:+ NL +:+
  "Url: " +:+ url.

(** A body with one attachment notice after the delimiter. *)
Definition delimiter : string := "-------------- next part --------------".

Definition attached (part : string) : string :=
  "See the picture." +:+ NL +:+ delimiter +:+ NL +:+ part.

(** A notice whose [Type] line has no value. *)
Definition untyped_notice : string :=
  scrubbed_marker +:+ NL +:+ "Type:" +:+ NL +:+
  "Size: 12345 bytes" +:+ NL +:+ "Url: http://example.org/x.png".

End Example.


(** ** Vocabulary of the statements *)

Definition is_pubdate_line (l : string) : bool := startswith l "<pubDate>".
Definition is_enclosure_line (l : string) : bool := startswith l "<enclosure ".

Section ItemParts.

Variable lib : Library.
Variable archive : MailmanArchive.

(** What [print_item] does after the item's own [pubDate]. *)
Definition item_rest (mail : Message) : Out unit :=
  (print_title_and_link lib archive mail ;;
   when (truthy (message_id mail))
     (print (guid_line (cgi_escape (strip_angles (the (message_id mail)))))) ;;
   body <- lift (body_text mail) ;;
   let parts := List.map strip (split_next_part body) in
   print (description_line (replace NL "<br/>" (hd EmptyString parts))) ;;
   for_each (print_enclosure lib) (tl parts) ;;
   print "</item>")%out.

End ItemParts.

(** Every character of [s] is in the class [p]. *)
Fixpoint all_chars (p : ascii -> bool) (s : string) : bool :=
  match s with
  | EmptyString => true
  | String c s' => p c && all_chars p s'
  end.


(** Character-wise substitution. *)
Fixpoint subst_chars (f : ascii -> string) (s : string) : string :=
  match s with
  | EmptyString => EmptyString
  | String c s' => f c +:+ subst_chars f s'
  end.

(** The entity of a character under [cgi.escape(s)]. *)
Definition escape_char (c : ascii) : string :=
  if Ascii.eqb c "&" then "&amp;"
  else if Ascii.eqb c "<" then "&lt;"
  else if Ascii.eqb c ">" then "&gt;"
  else String c EmptyString.

(** The escaping the specification asks for: the set of the ampersand,
    the two angle brackets and the double quote. *)
Definition spec_escape_char (c : ascii) : string :=
  if Ascii.eqb c dquote then "&quot;" else escape_char c.

Definition spec_escape (s : string) : string := subst_chars spec_escape_char s.

(** A text without angle bracket in which every ampersand starts one of
    the three entities. *)
Fixpoint markup_escaped (s : string) : bool :=
  match s with
  | EmptyString => true
  | String c s' =>
      negb (Ascii.eqb c "<") && negb (Ascii.eqb c ">") &&
      (negb (Ascii.eqb c "&") ||
       String.prefix "amp;" s' || String.prefix "lt;" s' ||
       String.prefix "gt;" s') &&
      markup_escaped s'
  end.

(** The lines of a feed.  The text of the channel elements, of [author],
    [pubDate] and [guid] is the output of [cgi_escape]; the title of an
    item is the decoded form of the escaped subject. *)
Inductive feed_line (lib : Library) (archive : MailmanArchive) : string -> Prop :=
  | line_markup (l : string) :
      In l [xml_declaration; rss_open; "<channel>"; "<item>"; "</item>";
            "</channel>"; "</rss>"] ->
      feed_line lib archive l
  | line_escaped (tag value : string) :
      In tag ["language"; "title"; "description"; "link"; "author"; "pubDate"] ->
      feed_line lib archive (element tag (cgi_escape value))
  | line_guid (value : string) :
      feed_line lib archive (guid_line (cgi_escape value))
  | line_item_title (subject title : string) :
      decode_header lib (cgi_escape subject) = Ok title ->
      feed_line lib archive (element "title" title)
  | line_item_link (t : struct_time) (segment number : string) :
      strftime_Y_B t = Ok segment ->
      feed_line lib archive (element "link" (permalink archive segment number))
  | line_description (body : string) :
      feed_line lib archive (description_line body)
  | line_enclosure (url size mime_type : string) :
      feed_line lib archive (enclosure_line url size mime_type).

Definition is_not_colon (c : ascii) : bool := negb (Ascii.eqb c ":").

(** The line-oriented scan, in words: the first line of [part] whose
    lower-case form starts with [name] has a colon, and [value] is what
    follows its first colon, stripped. *)
Definition field_value (part name value : string) : Prop :=
  exists before line after key rest,
    readlines part = before ++ line :: after /\
    Forall (fun l => startswith (lower l) name = false) before /\
    startswith (lower line) name = true /\
    line = key +:+ ":" +:+ rest /\
    all_chars is_not_colon key = true /\
    value = strip rest.

(** What makes an enclosure: the marker, a non-empty value for each of
    the three labels, and a URL with a non-empty network location. *)
Definition enclosure_fields (lib : Library)
    (part url size mime_type : string) : Prop :=
  contains scrubbed_marker part = true /\
  field_value part "type" mime_type /\ nonempty mime_type = true /\
  field_value part "size" size /\ nonempty size = true /\
  field_value part "url" url /\ nonempty url = true /\
  exists loc, urlparse_netloc lib url = Ok loc /\ nonempty loc = true.

(** The world after opening the URLs [urls]. *)
Definition fetched_more (urls : list string) (w : World) : World :=
  {| files := files w; fetched := fetched w ++ urls |}.

(** The messages of the month archive at [url]: what [get_month] and the
    list comprehension of lines 232-240 compute from the library. *)
Definition month_of (lib : Library) (encoding url : string) : result (list Message) :=
  match urlopen_read lib url with
  | Raise e => Raise e
  | Ok data_gz =>
      match gunzip lib data_gz with
      | Raise e => Raise e
      | Ok data =>
          match mbox_open lib data with
          | Raise e => Raise e
          | Ok mbox => map_result (decode_message lib encoding) mbox
          end
      end
  end.

(** The accumulator after the months [loaded]: each month reversed, in
    the order of the months. *)
Definition newest_first (loaded : list (list Message)) : list Message :=
  concat (List.map (@rev Message) loaded).

(** ** The rest of the program: [get_month_archives] and [main] *)

(** [s.endswith(suffix)] *)
Definition endswith (s suffix : string) : bool :=
  (String.length suffix <=? String.length s) &&
  String.eqb (drop_chars (String.length s - String.length suffix) s) suffix.

(** [tag.get(key)] on the attributes of a tag (each key occurs once). *)
Fixpoint attr_get (key : string) (attrs : list (string * string)) : option string :=
  match attrs with
  | [] => None
  | (k, v) :: rest => if String.eqb k key then Some v else attr_get key rest
  end.

Definition tag_attr (key : string) (n : Node) : option string :=
  match n with
  | NavigableString _ => None
  | Tag _ attrs _ => attr_get key attrs
  end.

(** The filter of [findAll("a", href=re.compile(".*txt(.gz)?"))]: an
    anchor with an [href] in which the expression is found.
    BeautifulSoup searches the value with [search], the leading [.*] and
    the optional group may match nothing, so the expression is found
    exactly when [txt] occurs in the value. *)
Definition is_month_anchor (n : Node) : bool :=
  is_tag_named "a" n &&
  match tag_attr "href" n with
  | Some href => contains "txt" href
  | None => false
  end.

(** [tag.findAll(...)]: the matching descendants in document order. *)
Definition find_all (p : Node -> bool) (n : Node) : list Node :=
  match n with
  | NavigableString _ => []
  | Tag _ _ cs => List.filter p (List.flat_map self_and_descendants cs)
  end.

(** Lines 106-111: the URL of one month. *)
Definition month_url (self : MailmanArchive) (month : Node) : string :=
  let url := the (tag_attr "href" month) in
  let url := if negb (endswith url ".gz") then url +:+ ".gz" else url in
  archive_url self +:+ url.

(** [MailmanArchive.get_month_archives] *)
Definition get_month_archives (self : MailmanArchive) : list string :=
  List.map (month_url self) (find_all is_month_anchor (_soup self)).

(** How [main] ends: it returns, it leaves through [sys.exit(code)], or
    an exception escapes. *)
Inductive Status : Type :=
  | Returned
  | Exited (code : Z)
  | Uncaught (e : exn).

Definition no_months_message : string :=
  "ERROR: Could not find month archives in url".

(** What [parser.parse_args()] (line 215) does with the command line:
    it returns [options.count], [options.encoding] and the positional
    arguments, or [optparse] leaves through [sys.exit] itself, with its own
    code and after writing [printed] to the standard output (the help and
    code 0 for [--help]; nothing and code 2 for an option it does not know
    or a [--count] that is no integer). *)
Inductive Parse : Type :=
  | Parsed (count : Z) (encoding : string) (args : list string)
  | ParserExit (code : Z) (printed : list string).

(** [main]; [parsed] is the outcome of [parser.parse_args()] and [help]
    the text of [parser.print_help()].  The result holds what was written
    to the standard output. *)
Definition main (lib : Library) (help : string) (parsed : Parse) (w : World)
    : World * (list string * Status) :=
  match parsed with
  | ParserExit code printed => (w, (printed, Exited code))
  | Parsed count encoding args =>
      match args with
      | [url] =>
          match MailmanArchive_init lib url w with
          | (w1, Raise e) => (w1, ([], Uncaught e))
          | (w1, Ok archive) =>
              match get_month_archives archive with
              | [] => (w1, ([no_months_message], Exited 1))
              | months =>
                  match select_mails lib encoding count months w1 with
                  | (w2, Raise e) => (w2, ([], Uncaught e))
                  | (w2, Ok mails) =>
                      (w2,
                       (lines (printrss lib archive mails),
                        match outcome (printrss lib archive mails) with
                        | Ok _ => Returned
                        | Raise e => Uncaught e
                        end))
                  end
              end
          end
      | _ => (w, ([help], Exited 1))
      end
  end.

(** An index page whose body is a list of anchors, one per [href]. *)
Definition anchor (href : string) : Node :=
  Tag "a" [("href", href)] [NavigableString href].

Definition index_page (title : string) (hrefs : list string) : Node :=
  Tag "[document]" []
    [Tag "html" []
       [Tag "head" [] [Tag "title" [] [NavigableString title]];
        Tag "body" [] (List.map anchor hrefs)]].

(** The number of lines equal to [l]. *)
Definition count_line (l : string) (ls : list string) : nat :=
  length (List.filter (String.eqb l) ls).

Definition is_upper (c : ascii) : bool := in_range 65 90 c.

(** The four lines that open and close an item and close the document. *)
Definition frame_line (x : string) : bool :=
  String.eqb x "<item>" || String.eqb x "</item>" ||
  String.eqb x "</channel>" || String.eqb x "</rss>".

(** [m] prints no frame line except [l0], which it prints once, at its
    very end, when it ends well. *)
Definition closes_with (l0 : string) {A : Type} (m : Out A) : Prop :=
  forall l,
    In l ["<item>"; "</item>"; "</channel>"; "</rss>"] ->
    count_line l (lines m) =
    if String.eqb l l0 && is_ok (outcome m) then 1 else 0.

Definition is_not_upper (c : ascii) : bool := negb (is_upper c).
Definition is_not_space (c : ascii) : bool := negb (is_space c).
Definition is_not_newline (c : ascii) : bool := negb (Ascii.eqb c newline).
Definition is_not_angle (c : ascii) : bool := negb (is_angle c).

(** The first character of [s] is in the class [p], or [s] is empty. *)
Definition first_char_in (p : ascii -> bool) (s : string) : bool :=
  match s with
  | EmptyString => true
  | String c _ => p c
  end.

(** The last character of [s] is in the class [p], or [s] is empty. *)
Definition last_char_in (p : ascii -> bool) (s : string) : bool :=
  match last_char s with
  | Ok c => p c
  | Raise _ => true
  end.

(** The example library with an index page that lists two months and a
    link to something else. *)
Definition listing_lib : Library :=
  {| formatdate := formatdate Example.lib;
     parsedate := parsedate Example.lib;
     decode_header := decode_header Example.lib;
     urlparse_netloc := urlparse_netloc Example.lib;
     urlopen_read := urlopen_read Example.lib;
     gunzip := gunzip Example.lib;
     mbox_open := mbox_open Example.lib;
     decode_message := decode_message Example.lib;
     html_parser := fun _ =>
       index_page "Dev list"
         ["2020-April.txt"; "2020-March.txt.gz"; "listinfo.html"] |}.

(** The time tuples that [time.strftime] accepts. *)
Definition time_in_range (t : struct_time) : bool :=
  between (-2147483648 + 1900) 2147483647 (tm_year t) &&
  between 0 31 (tm_mday t) && between 0 23 (tm_hour t) &&
  between 0 59 (tm_min t) && between 0 61 (tm_sec t).

(** * Properties *)

(** ** The writer monad *)

Section OutFacts.

Context {A B : Type}.

Lemma lines_bind (m : Out A) (k : A -> Out B) :
  lines (out_bind m k) =
  lines m ++ match outcome m with Ok a => lines (k a) | Raise _ => [] end.
Proof.
  destruct m as [l [a | e]]; simpl.
  - destruct (k a); reflexivity.
  - now rewrite app_nil_r.
Qed.

Lemma outcome_bind (m : Out A) (k : A -> Out B) :
  outcome (out_bind m k) =
  match outcome m with Ok a => outcome (k a) | Raise e => Raise e end.
Proof.
  destruct m as [l [a | e]]; simpl; [destruct (k a) |]; reflexivity.
Qed.

Lemma out_eq (m m' : Out A) :
  lines m = lines m' -> outcome m = outcome m' -> m = m'.
Proof. destruct m, m'; simpl; congruence. Qed.

End OutFacts.

Lemma out_bind_assoc {A B C : Type} (m : Out A) (k : A -> Out B) (h : B -> Out C) :
  out_bind (out_bind m k) h = out_bind m (fun a => out_bind (k a) h).
Proof.
  apply out_eq.
  - rewrite !lines_bind, outcome_bind.
    destruct (outcome m); [now rewrite lines_bind, app_assoc |].
    now rewrite !app_nil_r.
  - rewrite !outcome_bind. destruct (outcome m); [now rewrite outcome_bind |].
    reflexivity.
Qed.

Lemma out_bind_print {B : Type} (s : string) (k : unit -> Out B) :
  out_bind (print s) k = (s :: lines (k tt), outcome (k tt)).
Proof. unfold print, out_bind. destruct (k tt); reflexivity. Qed.

Lemma out_bind_ret {A B : Type} (a : A) (k : A -> Out B) :
  out_bind (out_ret a) k = k a.
Proof. unfold out_ret, out_bind. destruct (k a); reflexivity. Qed.

(** A property of every printed line passes through [out_bind]. *)
Lemma Forall_lines_bind {A B : Type} (P : string -> Prop)
    (m : Out A) (k : A -> Out B) :
  Forall P (lines m) -> (forall a, Forall P (lines (k a))) ->
  Forall P (lines (out_bind m k)).
Proof.
  intros Hm Hk. rewrite lines_bind. apply Forall_app. split; [exact Hm |].
  destruct (outcome m); [apply Hk | constructor].
Qed.

Lemma Forall_lines_when (P : string -> Prop) (b : bool) (m : Out unit) :
  Forall P (lines m) -> Forall P (lines (when b m)).
Proof. destruct b; simpl; [trivial | constructor]. Qed.

Lemma Forall_lines_for_each {A : Type} (P : string -> Prop)
    (body : A -> Out unit) (l : list A) :
  (forall x, Forall P (lines (body x))) ->
  Forall P (lines (for_each body l)).
Proof.
  intros Hb. induction l as [| x l IH]; simpl; [constructor |].
  apply Forall_lines_bind; auto.
Qed.

(** ** The lines of an item *)

Section ItemFacts.

Variable lib : Library.
Variable archive : MailmanArchive.

(** An enclosure round prints nothing or one [enclosure] line. *)
Lemma print_enclosure_lines (part : string) :
  Forall (fun l => exists url size mime_type,
            l = enclosure_line url size mime_type)
    (lines (print_enclosure lib part)).
Proof.
  unfold print_enclosure.
  destruct (negb (contains scrubbed_marker part)); [constructor |].
  repeat (apply Forall_lines_bind; [constructor | intros ?]).
  apply Forall_lines_when.
  apply Forall_lines_bind; [constructor | intros loc].
  apply Forall_lines_when. repeat constructor. eauto.
Qed.

Lemma enclosures_no_pubdate (parts : list string) :
  Forall (fun l => is_pubdate_line l = false)
    (lines (for_each (print_enclosure lib) parts)).
Proof.
  apply Forall_lines_for_each. intros part.
  eapply Forall_impl; [apply print_enclosure_lines |].
  intros l (url & size & mime_type & ->). reflexivity.
Qed.

Lemma title_and_link_no_pubdate (mail : Message) :
  Forall (fun l => is_pubdate_line l = false)
    (lines (print_title_and_link lib archive mail)).
Proof.
  unfold print_title_and_link. apply Forall_lines_when.
  apply Forall_lines_bind; [constructor | intros title].
  apply Forall_lines_bind; [repeat constructor | intros _].
  destruct (parsed_date lib mail), (match_subject title);
    try solve [repeat constructor].
  apply Forall_lines_bind; [constructor | intros segment].
  repeat constructor.
Qed.

End ItemFacts.

Lemma prefix_append (p s : string) : String.prefix p (p +:+ s) = true.
Proof.
  induction p as [| c p IH]; simpl; [now destruct s |].
  destruct (Ascii.ascii_dec c c); [exact IH | congruence].
Qed.

Lemma pubdate_element_is_pubdate_line (content : string) :
  is_pubdate_line (element "pubDate" content) = true.
Proof. apply (prefix_append "<pubDate>"). Qed.

Lemma when_print (b : bool) (s : string) :
  when b (print s) = ((if b then [s] else []), Ok tt).
Proof. destruct b; reflexivity. Qed.

Lemma filter_none {A : Type} (f : A -> bool) (l : list A) :
  Forall (fun x => f x = false) l -> List.filter f l = [].
Proof.
  induction 1 as [| x l Hx _ IH]; simpl; [reflexivity |]. now rewrite Hx.
Qed.

Section ItemPubDate.

Variable lib : Library.
Variable archive : MailmanArchive.

Lemma print_item_split (mail : Message) :
  print_item lib archive mail =
  ("<item>" ::
     (if truthy (from mail)
      then [element "author" (cgi_escape (replace " at " "@" (the (from mail))))]
      else []) ++
     (if truthy (date mail)
      then [element "pubDate" (cgi_escape (the (date mail)))] else []) ++
     lines (item_rest lib archive mail),
   outcome (item_rest lib archive mail)).
Proof.
  unfold print_item. rewrite out_bind_print. fold (item_rest lib archive mail).
  rewrite !when_print. f_equal.
  - simpl. destruct (item_rest lib archive mail). simpl. now rewrite app_assoc.
  - simpl. destruct (item_rest lib archive mail). reflexivity.
Qed.

Lemma item_rest_no_pubdate (mail : Message) :
  Forall (fun l => is_pubdate_line l = false) (lines (item_rest lib archive mail)).
Proof.
  unfold item_rest.
  apply Forall_lines_bind; [apply title_and_link_no_pubdate | intros _].
  apply Forall_lines_bind;
    [apply Forall_lines_when; repeat constructor | intros _].
  apply Forall_lines_bind; [constructor | intros body].
  apply Forall_lines_bind; [repeat constructor | intros _].
  apply Forall_lines_bind; [apply enclosures_no_pubdate | intros _].
  repeat constructor.
Qed.

End ItemPubDate.

(** ** C4: the item's [pubDate] *)

Lemma item_pubdate_lines
    (lib : Library) (archive : MailmanArchive) (mail : Message) :
  List.filter is_pubdate_line (lines (print_item lib archive mail)) =
  if truthy (date mail)
  then [element "pubDate" (cgi_escape (the (date mail)))]
  else [].
Proof.
  rewrite print_item_split. unfold lines at 1. cbn [fst].
  change (List.filter is_pubdate_line ("<item>" :: ?l))
    with (List.filter is_pubdate_line l).
  rewrite !List.filter_app.
  rewrite (filter_none _ _ (item_rest_no_pubdate lib archive mail)).
  rewrite app_nil_r.
  assert (Ha : forall x, is_pubdate_line (element "author" x) = false)
    by reflexivity.
  pose proof pubdate_element_is_pubdate_line as Hp.
  destruct (truthy (from mail)), (truthy (date mail));
    cbn [List.filter app]; rewrite ?Ha, ?Hp; reflexivity.
Qed.

(** C4, amended.  The [pubDate] lines of an item are exactly these: the
    escaped text of the date header when the message has a (non-empty)
    date header, and none otherwise.  The time of the run is not used for
    an item, and neither the position of the message in the feed nor the
    channel's [pubDate] has any influence. *)
Theorem item_pubdate_is_date_header
    (lib : Library) (archive : MailmanArchive) (mail : Message) :
  List.filter is_pubdate_line (lines (print_item lib archive mail)) =
  if truthy (date mail)
  then [element "pubDate" (cgi_escape (the (date mail)))]
  else [].
Proof. apply item_pubdate_lines. Qed.

(** C4 as stated fails: a message without date header is rendered whole,
    and its item holds no [pubDate] at all, in particular not the time of
    the run. *)
Lemma item_pubdate_counterexample :
  let mail := Example.titled "plain" in
  let item := print_item Example.lib (Example.archive "Dev") mail in
  date mail = None /\
  item = (["<item>"; "<title>plain</title>";
           "<description><![CDATA[]]></description>"; "</item>"], Ok tt) /\
  ~ In (element "pubDate" (formatdate Example.lib)) (lines item) /\
  List.filter is_pubdate_line (lines item) = [].
Proof.
  repeat split.
  vm_compute. intros H. repeat (destruct H as [H | H]; [discriminate H |]).
  exact H.
Qed.

(** ** C7: the channel's [pubDate] *)

Section ChannelPubDate.

Variable lib : Library.
Variable archive : MailmanArchive.

(** Once the flag is set the loop prints items only. *)
Lemma mail_loop_rendered (mails : list Message) :
  mail_loop lib archive true mails = for_each (print_item lib archive) mails.
Proof.
  induction mails as [| m rest IH]; [reflexivity |].
  cbn [mail_loop negb when for_each]. rewrite out_bind_ret. now rewrite IH.
Qed.

Lemma print_channel_pubdate_eq (m : Message) :
  print_channel_pubdate lib m =
  print (element "pubDate"
           (cgi_escape (if truthy (date m) then the (date m)
                        else formatdate lib))).
Proof. unfold print_channel_pubdate. now destruct (truthy (date m)). Qed.

Lemma mail_loop_first (m : Message) (rest : list Message) :
  mail_loop lib archive false (m :: rest) =
  out_bind (print_channel_pubdate lib m)
    (fun _ => for_each (print_item lib archive) (m :: rest)).
Proof.
  cbn [mail_loop negb when for_each]. now rewrite mail_loop_rendered.
Qed.

Lemma channel_head_no_pubdate :
  Forall (fun l => is_pubdate_line l = false)
    (lines (print_channel_head archive)).
Proof.
  unfold print_channel_head.
  repeat (apply Forall_lines_bind; [solve [repeat constructor] | intros ?]).
  apply Forall_lines_bind.
  - apply Forall_lines_when.
    apply Forall_lines_bind; [| intros ?]; repeat constructor.
  - intros _. repeat constructor.
Qed.

Lemma for_each_ok {A : Type} (body : A -> Out unit) (l : list A) :
  outcome (for_each body l) = Ok tt ->
  lines (for_each body l) = List.flat_map (fun x => lines (body x)) l.
Proof.
  induction l as [| x l IH]; simpl; [reflexivity |].
  rewrite outcome_bind, lines_bind.
  destruct (outcome (body x)) as [[] | e]; [| discriminate].
  intros H. now rewrite IH.
Qed.

Lemma filter_flat_map {A C : Type} (p : C -> bool) (g : A -> list C) (l : list A) :
  List.filter p (List.flat_map g l) =
  List.flat_map (fun x => List.filter p (g x)) l.
Proof.
  induction l as [| x l IH]; simpl; [reflexivity |].
  now rewrite List.filter_app, IH.
Qed.

End ChannelPubDate.

(** Without messages the loop body never runs. *)
Lemma printrss_no_mails (lib : Library) (archive : MailmanArchive) :
  printrss lib archive [] =
    (print_channel_head archive ;; print "</channel>" ;; print "</rss>")%out.
Proof. unfold printrss. cbn [mail_loop]. now rewrite out_bind_ret. Qed.

(** C7, amended.  In a run with at least one message the channel's
    [pubDate] is printed once, after the channel head and before the
    first item; it holds the date header of the first message, or the
    time of the run when that header is missing or empty.  The messages
    after the first print items only, so their dates never replace it.
    When the run ends well the [pubDate] lines of the document are the
    channel's line followed by the lines of the dated items. *)
Theorem channel_pubdate_from_first_message
    (lib : Library) (archive : MailmanArchive)
    (m : Message) (rest : list Message) :
  printrss lib archive (m :: rest) =
    (print_channel_head archive ;;
     print (element "pubDate"
              (cgi_escape (if truthy (date m) then the (date m)
                           else formatdate lib))) ;;
     for_each (print_item lib archive) (m :: rest) ;;
     print "</channel>" ;;
     print "</rss>")%out /\
  (outcome (printrss lib archive (m :: rest)) = Ok tt ->
   List.filter is_pubdate_line (lines (printrss lib archive (m :: rest))) =
     element "pubDate"
       (cgi_escape (if truthy (date m) then the (date m)
                    else formatdate lib)) ::
     List.flat_map
       (fun mail =>
          if truthy (date mail)
          then [element "pubDate" (cgi_escape (the (date mail)))]
          else [])
       (m :: rest)).
Proof.
  assert (Hshape :
     printrss lib archive (m :: rest) =
       (print_channel_head archive ;;
        print (element "pubDate"
                 (cgi_escape (if truthy (date m) then the (date m)
                              else formatdate lib))) ;;
        for_each (print_item lib archive) (m :: rest) ;;
        print "</channel>" ;;
        print "</rss>")%out).
  { unfold printrss.
    rewrite mail_loop_first, print_channel_pubdate_eq.
    now rewrite out_bind_assoc. }
  split; [exact Hshape |].
  rewrite Hshape.
  rewrite outcome_bind, lines_bind.
  destruct (outcome (print_channel_head archive)) as [[] | e];
    [| discriminate].
  rewrite out_bind_print. cbn [outcome lines fst snd].
  rewrite outcome_bind, lines_bind.
  set (items := for_each (print_item lib archive) (m :: rest)).
  destruct (outcome items) as [[] | e] eqn:Hitems; [| discriminate].
  intros _.
  rewrite List.filter_app.
  rewrite (filter_none _ _ (channel_head_no_pubdate archive)).
  cbn [app List.filter].
  rewrite pubdate_element_is_pubdate_line.
  f_equal.
  rewrite List.filter_app.
  unfold items. rewrite (for_each_ok _ _ Hitems), filter_flat_map.
  cbn [lines fst out_bind print List.filter app].
  rewrite app_nil_r.
  apply List.flat_map_ext. intros mail. apply item_pubdate_lines.
Qed.

(** A run that ends well: two messages, the first without date. *)
Lemma channel_pubdate_witness :
  outcome (printrss Example.lib (Example.archive "Dev")
             [Example.titled "plain"; Example.dated "hello"]) = Ok tt /\
  List.filter is_pubdate_line
    (lines (printrss Example.lib (Example.archive "Dev")
              [Example.titled "plain"; Example.dated "hello"])) =
  ["<pubDate>Wed, 04 Nov 2026 09:00:00 -0000</pubDate>";
   "<pubDate>Wed, 01 Apr 2020 10:00:00 +0000</pubDate>"].
Proof.
  split; [reflexivity |].
  destruct (channel_pubdate_from_first_message
              Example.lib (Example.archive "Dev")
              (Example.titled "plain") [Example.dated "hello"]) as (_ & H).
  rewrite H; reflexivity.
Defined.

(** C7 as stated fails for a run without messages: the document is the
    channel head and the two closing lines, it ends well, and it holds no
    [pubDate] at all, in particular not the time of the run. *)
Lemma channel_pubdate_counterexample :
  let run := printrss Example.lib (Example.archive "Dev") [] in
  run =
    ([xml_declaration; rss_open; "<channel>"; "<language>ja-JP</language>";
      "<title>Dev</title>"; "<description>Dev</description>";
      "<link>http://lists.example.org/pipermail/dev/</link>";
      "</channel>"; "</rss>"], Ok tt) /\
  List.filter is_pubdate_line (lines run) = [] /\
  ~ In (element "pubDate" (cgi_escape (formatdate Example.lib))) (lines run).
Proof.
  repeat split.
  vm_compute. intros H. repeat (destruct H as [H | H]; [discriminate H |]).
  exact H.
Qed.

(** ** The subject pattern *)

Lemma span_spec (p : ascii -> bool) (s : string) :
  s = fst (span p s) +:+ snd (span p s) /\
  all_chars p (fst (span p s)) = true /\
  match snd (span p s) with
  | EmptyString => True
  | String c _ => p c = false
  end.
Proof.
  induction s as [| c s IH]; simpl; [auto |].
  destruct (p c) eqn:Hc; simpl; [| auto].
  destruct (span p s) as [a b]. simpl in *.
  destruct IH as (-> & Ha & Hb). rewrite Hc. auto.
Qed.





(** ** C1: the link of an item *)

Lemma out_bind_lift {A B : Type} (r : result A) (k : A -> Out B) :
  out_bind (lift r) k =
  match r with Ok a => k a | Raise e => ([], Raise e) end.
Proof. destruct r as [a | e]; simpl; [destruct (k a) |]; reflexivity. Qed.

Section ItemLink.

Variable lib : Library.
Variable archive : MailmanArchive.





End ItemLink.

Lemma append_cons (x : ascii) (a b : string) :
  String x a +:+ b = String x (a +:+ b).
Proof. reflexivity. Qed.

Lemma append_nil_l (a : string) : EmptyString +:+ a = a.
Proof. reflexivity. Qed.

Lemma append_assoc (a b c : string) : (a +:+ b) +:+ c = a +:+ (b +:+ c).
Proof.
  induction a as [| x a IH]; [reflexivity |].
  now rewrite !append_cons, IH.
Qed.

Lemma length_zeros (n : nat) : String.length (zeros n) = n.
Proof. induction n as [| n IH]; simpl; [reflexivity | now rewrite IH]. Qed.

Lemma length_append (a b : string) :
  String.length (a +:+ b) = String.length a + String.length b.
Proof.
  induction a as [| x a IH]; [reflexivity |].
  rewrite append_cons. cbn [String.length]. now rewrite IH.
Qed.

(** Zero fill reaches the width and never cuts. *)
Lemma length_zfill (width : nat) (s : string) :
  String.length (zfill width s) = Nat.max width (String.length s).
Proof. unfold zfill. rewrite length_append, length_zeros. lia. Qed.





Lemma strftime_Y_B_out_of_range (t : struct_time) :
  time_in_range t = false ->
  strftime_Y_B t = Raise OverflowError \/ strftime_Y_B t = Raise ValueError.
Proof.
  intros H. unfold strftime_Y_B.
  destruct (negb (is_c_int (tm_year t) && is_c_int (tm_mday t) &&
                  is_c_int (tm_hour t) && is_c_int (tm_min t) &&
                  is_c_int (tm_sec t) &&
                  (-2147483648 + 1900 <=? tm_year t)%Z)) eqn:H1;
    [now left |].
  destruct (negb (between 0 31 (tm_mday t) && between 0 23 (tm_hour t) &&
                  between 0 59 (tm_min t) && between 0 61 (tm_sec t))) eqn:H2;
    [now right |].
  exfalso. apply negb_false_iff in H1, H2.
  unfold is_c_int in H1. unfold between in H2.
  rewrite !andb_true_iff, !Z.leb_le in H1, H2.
  assert (Ht : time_in_range t = true)
    by (unfold time_in_range, between; rewrite !andb_true_iff, !Z.leb_le; lia).
  congruence.
Qed.




(** ** C3: escaping *)

Lemma prefix_empty (s : string) : String.prefix EmptyString s = true.
Proof. now destruct s. Qed.

Lemma subst_chars_append (f : ascii -> string) (a b : string) :
  subst_chars f (a +:+ b) = subst_chars f a +:+ subst_chars f b.
Proof.
  induction a as [| x a IH]; [reflexivity |].
  rewrite append_cons. cbn [subst_chars]. now rewrite IH, append_assoc.
Qed.

(** Replacing a one-character string is a character-wise substitution. *)
Lemma replace_char (c : ascii) (new s : string) :
  replace (String c EmptyString) new s =
  subst_chars (fun x => if Ascii.eqb x c then new else String x EmptyString) s.
Proof.
  unfold replace. induction s as [| x s IH]; [reflexivity |].
  cbn [replace_from subst_chars String.prefix String.length Nat.sub].
  rewrite prefix_empty.
  destruct (Ascii.ascii_dec c x) as [<- | Hne].
  - now rewrite Ascii.eqb_refl, IH.
  - destruct (Ascii.eqb_spec x c) as [-> | _]; [congruence |].
    now rewrite IH.
Qed.

(** [cgi_escape] works character by character: the ampersand and the
    angle brackets become entities, every other character is copied. *)
Lemma cgi_escape_chars (s : string) :
  cgi_escape s = subst_chars escape_char s.
Proof.
  unfold cgi_escape.
  rewrite (replace_char "&"), (replace_char "<"), (replace_char ">").
  induction s as [| x s IH]; [reflexivity |].
  cbn [subst_chars]. rewrite !subst_chars_append, IH. f_equal.
  unfold escape_char.
  destruct (Ascii.eqb_spec x "&") as [-> | H1]; [reflexivity |].
  cbn [subst_chars].
  destruct (Ascii.eqb_spec x "<") as [-> | H2]; [reflexivity |].
  rewrite append_cons, append_nil_l. cbn [subst_chars].
  destruct (Ascii.eqb_spec x ">") as [-> | H3]; reflexivity.
Qed.

Lemma markup_escaped_plain (c : ascii) (r : string) :
  Ascii.eqb c "<" = false -> Ascii.eqb c ">" = false ->
  Ascii.eqb c "&" = false ->
  markup_escaped (String c r) = markup_escaped r.
Proof. intros H1 H2 H3. cbn [markup_escaped]. now rewrite H1, H2, H3. Qed.

Lemma markup_escaped_entity (e r : string) :
  In e ["amp;"; "lt;"; "gt;"] ->
  markup_escaped e = true ->
  markup_escaped (String "&" (e +:+ r)) = markup_escaped (e +:+ r).
Proof.
  intros He _. cbn [markup_escaped].
  assert (Hp : String.prefix "amp;" (e +:+ r) || String.prefix "lt;" (e +:+ r)
               || String.prefix "gt;" (e +:+ r) = true).
  { destruct He as [<- | [<- | [<- | []]]].
    - now rewrite (prefix_append "amp;").
    - rewrite (prefix_append "lt;"). now rewrite orb_true_r.
    - rewrite (prefix_append "gt;"). now rewrite orb_true_r. }
  change (negb ("&" =? "<")%char) with true.
  change (negb ("&" =? ">")%char) with true.
  change (negb ("&" =? "&")%char) with false.
  cbn [andb orb]. now rewrite Hp.
Qed.

Lemma cgi_escape_escaped (s : string) : markup_escaped (cgi_escape s) = true.
Proof.
  rewrite cgi_escape_chars.
  induction s as [| x s IH]; [reflexivity |].
  cbn [subst_chars]. unfold escape_char at 1.
  destruct (Ascii.eqb_spec x "&") as [-> | H1].
  { change ("&amp;" +:+ ?r) with (String "&" ("amp;" +:+ r)).
    rewrite markup_escaped_entity by (simpl; auto).
    change ("amp;" +:+ ?r) with (String "a" (String "m" (String "p" (String ";" r)))).
    now rewrite !markup_escaped_plain. }
  destruct (Ascii.eqb_spec x "<") as [-> | H2].
  { change ("&lt;" +:+ ?r) with (String "&" ("lt;" +:+ r)).
    rewrite markup_escaped_entity by (simpl; auto).
    change ("lt;" +:+ ?r) with (String "l" (String "t" (String ";" r))).
    now rewrite !markup_escaped_plain. }
  destruct (Ascii.eqb_spec x ">") as [-> | H3].
  { change ("&gt;" +:+ ?r) with (String "&" ("gt;" +:+ r)).
    rewrite markup_escaped_entity by (simpl; auto).
    change ("gt;" +:+ ?r) with (String "g" (String "t" (String ";" r))).
    now rewrite !markup_escaped_plain. }
  rewrite append_cons, append_nil_l.
  apply Ascii.eqb_neq in H1, H2, H3.
  now rewrite markup_escaped_plain.
Qed.

Section FeedLines.

Variable lib : Library.
Variable archive : MailmanArchive.

Local Ltac one tac := apply List.Forall_cons; [tac | apply List.Forall_nil].
Local Ltac markup := one ltac:(apply line_markup; simpl; tauto).
Local Ltac escaped := one ltac:(apply line_escaped; simpl; tauto).

Lemma channel_head_feed_lines :
  Forall (feed_line lib archive) (lines (print_channel_head archive)).
Proof.
  unfold print_channel_head.
  do 3 (apply Forall_lines_bind; [markup | intros _]).
  apply Forall_lines_bind; [escaped | intros _].
  apply Forall_lines_bind; [constructor | intros title].
  apply Forall_lines_bind.
  - apply Forall_lines_when.
    apply Forall_lines_bind; [| intros _]; escaped.
  - intros _. escaped.
Qed.

Lemma title_and_link_feed_lines (mail : Message) :
  Forall (feed_line lib archive)
    (lines (print_title_and_link lib archive mail)).
Proof.
  unfold print_title_and_link. apply Forall_lines_when.
  rewrite out_bind_lift.
  destruct (decode_header lib (cgi_escape (the (subject mail))))
    as [title | e] eqn:Hd; [| constructor].
  apply Forall_lines_bind.
  - one ltac:(now apply line_item_title with (the (subject mail))).
  - intros _.
    destruct (parsed_date lib mail), (match_subject title);
      try apply List.Forall_nil.
    rewrite out_bind_lift.
    destruct (strftime_Y_B s) as [segment | e] eqn:Ht;
      [| apply List.Forall_nil].
    one ltac:(now apply line_item_link with s).
Qed.

Lemma item_feed_lines (mail : Message) :
  Forall (feed_line lib archive) (lines (print_item lib archive mail)).
Proof.
  unfold print_item.
  apply Forall_lines_bind; [markup | intros _].
  apply Forall_lines_bind; [apply Forall_lines_when; escaped | intros _].
  apply Forall_lines_bind; [apply Forall_lines_when; escaped | intros _].
  apply Forall_lines_bind; [apply title_and_link_feed_lines | intros _].
  apply Forall_lines_bind;
    [apply Forall_lines_when; one ltac:(apply line_guid) | intros _].
  apply Forall_lines_bind; [constructor | intros body].
  apply Forall_lines_bind; [one ltac:(apply line_description) | intros _].
  apply Forall_lines_bind.
  - apply Forall_lines_for_each. intros part.
    eapply Forall_impl; [apply print_enclosure_lines |].
    intros l (url & size & mime_type & ->). apply line_enclosure.
  - intros _. markup.
Qed.

Lemma printrss_feed_lines (mails : list Message) :
  Forall (feed_line lib archive) (lines (printrss lib archive mails)).
Proof.
  unfold printrss.
  apply Forall_lines_bind; [apply channel_head_feed_lines | intros _].
  apply Forall_lines_bind.
  - generalize false. induction mails as [| m rest IH]; intros flag;
      cbn [mail_loop]; [constructor |].
    apply Forall_lines_bind.
    + apply Forall_lines_when. unfold print_channel_pubdate.
      destruct (truthy (date m)); escaped.
    + intros _. apply Forall_lines_bind; [apply item_feed_lines | intros _].
      apply IH.
  - intros _. apply Forall_lines_bind; [| intros _]; markup.
Qed.

(** The channel head, line by line. *)
Lemma channel_head_lines (title : option string) :
  get_title archive = Ok title ->
  print_channel_head archive =
  ([xml_declaration; rss_open; "<channel>";
    element "language" (cgi_escape "ja-JP")] ++
   (if truthy title
    then [element "title" (cgi_escape (the title));
          element "description" (cgi_escape (the title))]
    else []) ++
   [element "link" (cgi_escape (archive_url archive))], Ok tt).
Proof.
  intros Ht. unfold print_channel_head.
  rewrite !out_bind_print. cbn [lines outcome fst snd].
  rewrite out_bind_lift, Ht.
  destruct (truthy title); reflexivity.
Qed.

End FeedLines.

(** C3, amended.  Every line of the document is markup, an element whose
    text is the output of [cgi_escape] (the language, title, description
    and link of the channel, and [author], [pubDate] and [guid] of an
    item), the title of an item (the decoded form of the escaped
    subject), the link of an item, a description in a CDATA block (not
    escaped), or an enclosure.  The channel head and the first lines of
    an item are given value by value.  The output of [cgi_escape] holds
    no angle bracket, and each of its ampersands starts [&amp;], [&lt;]
    or [&gt;]; every other character, the double quote among them, is
    copied. *)
Theorem feed_text_is_escaped
    (lib : Library) (archive : MailmanArchive) (mails : list Message) :
  Forall (feed_line lib archive) (lines (printrss lib archive mails)) /\
  (forall title,
     get_title archive = Ok title ->
     print_channel_head archive =
       ([xml_declaration; rss_open; "<channel>";
         element "language" (cgi_escape "ja-JP")] ++
        (if truthy title
         then [element "title" (cgi_escape (the title));
               element "description" (cgi_escape (the title))]
         else []) ++
        [element "link" (cgi_escape (archive_url archive))], Ok tt)) /\
  (forall mail,
     print_item lib archive mail =
       ("<item>" ::
          (if truthy (from mail)
           then [element "author"
                   (cgi_escape (replace " at " "@" (the (from mail))))]
           else []) ++
          (if truthy (date mail)
           then [element "pubDate" (cgi_escape (the (date mail)))]
           else []) ++
          lines (item_rest lib archive mail),
        outcome (item_rest lib archive mail))) /\
  (forall value,
     markup_escaped (cgi_escape value) = true /\
     cgi_escape value = subst_chars escape_char value) /\
  escape_char dquote = DQ.
Proof.
  split; [apply printrss_feed_lines |].
  split; [apply channel_head_lines |].
  split; [apply print_item_split |].
  split; [| reflexivity].
  intros value. split; [apply cgi_escape_escaped | apply cgi_escape_chars].
Qed.

(** A channel title with an ampersand and angle brackets. *)
Lemma feed_text_witness :
  get_title (Example.archive "R&D <dev>") = Ok (Some "R&D <dev>") /\
  lines (print_channel_head (Example.archive "R&D <dev>")) =
    [xml_declaration; rss_open; "<channel>"; "<language>ja-JP</language>";
     "<title>R&amp;D &lt;dev&gt;</title>";
     "<description>R&amp;D &lt;dev&gt;</description>";
     "<link>http://lists.example.org/pipermail/dev/</link>"].
Proof.
  split; [reflexivity |].
  destruct (feed_text_is_escaped Example.lib (Example.archive "R&D <dev>") [])
    as (_ & H & _).
  rewrite (H (Some "R&D <dev>") eq_refl). reflexivity.
Defined.

(** C3 as stated fails: a double quote in the title of the archive is
    printed as it is, where the specification asks for [&quot;]. *)
Lemma quote_not_escaped_counterexample :
  let t := "the " +:+ DQ +:+ "dev" +:+ DQ +:+ " list" in
  let head := print_channel_head (Example.archive t) in
  get_title (Example.archive t) = Ok (Some t) /\
  lines head =
    [xml_declaration; rss_open; "<channel>"; "<language>ja-JP</language>";
     element "title" t; element "description" t;
     "<link>http://lists.example.org/pipermail/dev/</link>"] /\
  contains DQ t = true /\
  spec_escape t = "the &quot;dev&quot; list" /\
  ~ In (element "title" (spec_escape t)) (lines head).
Proof.
  repeat split.
  vm_compute. intros H. repeat (destruct H as [H | H]; [discriminate H |]).
  exact H.
Qed.

(** ** C6: enclosures *)

Lemma split_colon_once_spec (line : string) :
  (split_colon_once line = [line] /\ all_chars is_not_colon line = true) \/
  (exists key rest,
     split_colon_once line = [key; rest] /\
     line = key +:+ ":" +:+ rest /\ all_chars is_not_colon key = true).
Proof.
  induction line as [| c line IH]; [left; split; reflexivity |].
  cbn [split_colon_once all_chars]. unfold is_not_colon at 1.
  destruct (Ascii.eqb_spec c ":") as [-> | Hc].
  - right. exists EmptyString, line. repeat split.
  - destruct IH as [[-> Hall] | (key & rest & -> & -> & Hall)].
    + left. split; [reflexivity | exact Hall].
    + right. exists (String c key), rest. repeat split.
      cbn [all_chars]. unfold is_not_colon at 1.
      apply Ascii.eqb_neq in Hc. now rewrite Hc.
Qed.

Lemma split_colon_once_append (key rest : string) :
  all_chars is_not_colon key = true ->
  split_colon_once (key +:+ ":" +:+ rest) = [key; rest].
Proof.
  induction key as [| c key IH]; intros Hall; [reflexivity |].
  cbn [all_chars] in Hall. apply andb_true_iff in Hall as [Hc Hall].
  rewrite append_cons. cbn [split_colon_once].
  unfold is_not_colon in Hc. apply negb_true_iff in Hc. rewrite Hc.
  now rewrite IH.
Qed.

Lemma scan_lines_iff (ls : list string) (name value : string) :
  scan_lines ls name = Ok (Some value) <->
  exists before line after key rest,
    ls = before ++ line :: after /\
    Forall (fun l => startswith (lower l) name = false) before /\
    startswith (lower line) name = true /\
    line = key +:+ ":" +:+ rest /\
    all_chars is_not_colon key = true /\
    value = strip rest.
Proof.
  induction ls as [| l ls IH]; cbn [scan_lines].
  - split; [discriminate |].
    intros (before & line & after & _ & _ & H & _). now destruct before.
  - destruct (startswith (lower l) name) eqn:Hl.
    + split.
      * destruct (split_colon_once_spec l)
          as [[-> _] | (key & rest & -> & -> & Hall)]; [discriminate |].
        intros [= <-]. exists [], (key +:+ ":" +:+ rest), ls, key, rest.
        repeat split; auto.
      * intros (before & line & after & key & rest & Hls & Hb & _ & -> & Hall & ->).
        destruct before as [| b before]; simplify_eq/=.
        -- now rewrite split_colon_once_append.
        -- apply Forall_cons in Hb as [Hb _]. congruence.
    + rewrite IH. split.
      * intros (before & line & after & key & rest & -> & Hb & H).
        exists (l :: before), line, after, key, rest.
        split; [reflexivity |]. split; [| exact H].
        constructor; assumption.
      * intros (before & line & after & key & rest & Hls & Hb & Hline & H).
        destruct before as [| b before]; simplify_eq/=.
        -- congruence.
        -- apply Forall_cons in Hb as [_ Hb].
           exists before, line, after, key, rest. auto.
Qed.

(** [get_part_field] implements the scan. *)
Lemma get_part_field_iff (part name value : string) :
  get_part_field part name = Ok (Some value) <-> field_value part name value.
Proof. apply scan_lines_iff. Qed.

Lemma truthy_Some (s : string) : truthy (Some s) = nonempty s.
Proof. now destruct s. Qed.

(** One round of the loop over [parts[1:]], case by case. *)
Lemma print_enclosure_cases (lib : Library) (part : string) :
  print_enclosure lib part =
  if negb (contains scrubbed_marker part) then ([], Ok tt)
  else
    match get_part_field part "type" with
    | Raise e => ([], Raise e)
    | Ok mime_type =>
        match get_part_field part "size" with
        | Raise e => ([], Raise e)
        | Ok size =>
            match get_part_field part "url" with
            | Raise e => ([], Raise e)
            | Ok url =>
                if truthy mime_type && truthy size && truthy url then
                  match urlparse_netloc lib (the url) with
                  | Raise e => ([], Raise e)
                  | Ok loc =>
                      if nonempty loc
                      then ([enclosure_line (the url) (the size) (the mime_type)],
                            Ok tt)
                      else ([], Ok tt)
                  end
                else ([], Ok tt)
            end
        end
    end.
Proof.
  unfold print_enclosure.
  destruct (negb (contains scrubbed_marker part)); [reflexivity |].
  rewrite out_bind_lift.
  destruct (get_part_field part "type") as [mime_type | e]; [| reflexivity].
  rewrite out_bind_lift.
  destruct (get_part_field part "size") as [size | e]; [| reflexivity].
  rewrite out_bind_lift.
  destruct (get_part_field part "url") as [url | e]; [| reflexivity].
  destruct (truthy mime_type && truthy size && truthy url); [| reflexivity].
  cbn [when]. rewrite out_bind_lift.
  destruct (urlparse_netloc lib (the url)) as [loc | e]; [| reflexivity].
  now destruct (nonempty loc).
Qed.

Lemma enclosure_fields_print (lib : Library) (part url size mime_type : string) :
  enclosure_fields lib part url size mime_type ->
  print_enclosure lib part = ([enclosure_line url size mime_type], Ok tt).
Proof.
  intros (Hm & Ht & Hnt & Hs & Hns & Hu & Hnu & loc & Hloc & Hnl).
  apply get_part_field_iff in Ht, Hs, Hu.
  rewrite print_enclosure_cases, Hm, Ht, Hs, Hu. cbn [negb].
  rewrite !truthy_Some, Hnt, Hns, Hnu. cbn [andb the].
  now rewrite Hloc, Hnl.
Qed.

Lemma print_enclosure_fields (lib : Library) (part : string) :
  lines (print_enclosure lib part) <> [] ->
  exists url size mime_type, enclosure_fields lib part url size mime_type.
Proof.
  rewrite print_enclosure_cases.
  destruct (contains scrubbed_marker part) eqn:Hm; cbn [negb];
    [| intros H; now elim H].
  destruct (get_part_field part "type") as [[mime_type |] | e] eqn:Ht;
    try (intros H; now elim H);
    destruct (get_part_field part "size") as [[size |] | e] eqn:Hs;
    try (intros H; now elim H);
    destruct (get_part_field part "url") as [[url |] | e] eqn:Hu;
    try (intros H; now elim H);
    rewrite ?truthy_Some; cbn [truthy andb];
    try (rewrite ?andb_false_r; intros H; now elim H).
  destruct (nonempty mime_type) eqn:Hnt; [| intros H; now elim H].
  destruct (nonempty size) eqn:Hns; [| intros H; now elim H].
  destruct (nonempty url) eqn:Hnu; [| intros H; now elim H].
  cbn [andb the].
  destruct (urlparse_netloc lib url) as [loc | e] eqn:Hloc;
    [| intros H; now elim H].
  destruct (nonempty loc) eqn:Hnl; [| intros H; now elim H].
  intros _. exists url, size, mime_type.
  apply get_part_field_iff in Ht, Hs, Hu.
  repeat (split; [assumption |]). eauto.
Qed.

(** The loop runs through an initial part of the list: all of it when
    no round raises. *)
Lemma for_each_prefix {A : Type} (body : A -> Out unit) (l : list A) :
  exists n,
    n <= length l /\
    lines (for_each body l) = List.flat_map (fun x => lines (body x)) (take n l) /\
    (outcome (for_each body l) = Ok tt -> n = length l).
Proof.
  induction l as [| x l (n & Hn & Hl & Ho)].
  - exists 0. repeat split. cbn. lia.
  - cbn [for_each]. rewrite lines_bind, outcome_bind.
    destruct (outcome (body x)) as [[] | e].
    + exists (S n). cbn [take List.flat_map length]. rewrite Hl.
      repeat split; [lia |]. intros H. now rewrite (Ho H).
    + exists 1. cbn [take List.flat_map length]. rewrite take_0.
      repeat split; [lia |]. discriminate.
Qed.

Lemma filter_all {A : Type} (f : A -> bool) (l : list A) :
  Forall (fun x => f x = true) l -> List.filter f l = l.
Proof.
  induction 1 as [| x l Hx _ IH]; simpl; [reflexivity |]. now rewrite Hx, IH.
Qed.

Lemma enclosure_line_is_enclosure_line (url size mime_type : string) :
  is_enclosure_line (enclosure_line url size mime_type) = true.
Proof.
  unfold enclosure_line.
  change ("<enclosure url=" +:+ DQ +:+ url +:+ ?r)
    with ("<enclosure " +:+ ("url=" +:+ DQ +:+ url +:+ r)).
  apply (prefix_append "<enclosure ").
Qed.

Section ItemEnclosures.

Variable lib : Library.
Variable archive : MailmanArchive.

Lemma enclosures_all_enclosure (parts : list string) :
  Forall (fun l => is_enclosure_line l = true)
    (lines (for_each (print_enclosure lib) parts)).
Proof.
  apply Forall_lines_for_each. intros part.
  eapply Forall_impl; [apply print_enclosure_lines |].
  intros l (url & size & mime_type & ->).
  apply enclosure_line_is_enclosure_line.
Qed.

Lemma title_and_link_no_enclosure (mail : Message) :
  Forall (fun l => is_enclosure_line l = false)
    (lines (print_title_and_link lib archive mail)).
Proof.
  unfold print_title_and_link. apply Forall_lines_when.
  apply Forall_lines_bind; [constructor | intros title].
  apply Forall_lines_bind; [repeat constructor | intros _].
  destruct (parsed_date lib mail), (match_subject title);
    try solve [repeat constructor].
  apply Forall_lines_bind; [constructor | intros segment].
  repeat constructor.
Qed.

(** The enclosure lines of an item are the lines of the loop over
    [parts[1:]], which the item reaches when title and link are printed. *)
Lemma item_enclosure_lines (mail : Message) (body : string) :
  payload mail = Text body ->
  List.filter is_enclosure_line (lines (print_item lib archive mail)) =
  match outcome (print_title_and_link lib archive mail) with
  | Ok _ =>
      lines (for_each (print_enclosure lib)
               (tl (List.map strip (split_next_part body))))
  | Raise _ => []
  end.
Proof.
  intros Hbody. rewrite print_item_split. cbn [lines fst].
  change (List.filter is_enclosure_line ("<item>" :: ?l))
    with (List.filter is_enclosure_line l).
  rewrite !List.filter_app.
  assert (Ha : forall x, is_enclosure_line (element "author" x) = false)
    by reflexivity.
  assert (Hp : forall x, is_enclosure_line (element "pubDate" x) = false)
    by reflexivity.
  replace (List.filter is_enclosure_line
             (if truthy (from mail)
              then [element "author"
                      (cgi_escape (replace " at " "@" (the (from mail))))]
              else [])) with (@nil string)
    by (destruct (truthy (from mail)); cbn [List.filter]; now rewrite ?Ha).
  replace (List.filter is_enclosure_line
             (if truthy (date mail)
              then [element "pubDate" (cgi_escape (the (date mail)))]
              else [])) with (@nil string)
    by (destruct (truthy (date mail)); cbn [List.filter]; now rewrite ?Hp).
  cbn [app]. unfold item_rest. rewrite lines_bind, List.filter_app.
  rewrite (filter_none _ _ (title_and_link_no_enclosure mail)). cbn [app].
  destruct (outcome (print_title_and_link lib archive mail)); [| reflexivity].
  rewrite lines_bind, List.filter_app, when_print. cbn [lines outcome fst snd].
  assert (Hg : forall x, is_enclosure_line (guid_line x) = false)
    by reflexivity.
  replace (List.filter is_enclosure_line
             (if truthy (message_id mail)
              then [guid_line (cgi_escape (strip_angles (the (message_id mail))))]
              else [])) with (@nil string)
    by (destruct (truthy (message_id mail)); cbn [List.filter]; now rewrite ?Hg).
  cbn [app]. unfold body_text. rewrite Hbody, out_bind_lift, out_bind_print.
  cbn [lines fst].
  change (List.filter is_enclosure_line (description_line ?d :: ?l))
    with (List.filter is_enclosure_line l).
  rewrite lines_bind, List.filter_app.
  rewrite (filter_all _ _ (enclosures_all_enclosure _)).
  rewrite <- app_nil_r. f_equal.
  now destruct (outcome (for_each (print_enclosure lib) _)).
Qed.

Lemma item_ok_enclosures_ok (mail : Message) (body : string) :
  payload mail = Text body ->
  outcome (print_item lib archive mail) = Ok tt ->
  outcome (print_title_and_link lib archive mail) = Ok tt /\
  outcome (for_each (print_enclosure lib)
             (tl (List.map strip (split_next_part body)))) = Ok tt.
Proof.
  intros Hbody. rewrite print_item_split. cbn [outcome snd].
  unfold item_rest. rewrite outcome_bind.
  destruct (outcome (print_title_and_link lib archive mail)) as [[] | e];
    [| discriminate].
  rewrite outcome_bind, when_print. cbn [outcome snd].
  unfold body_text. rewrite Hbody, out_bind_lift, out_bind_print.
  cbn [outcome snd]. rewrite outcome_bind.
  destruct (outcome (for_each (print_enclosure lib) _)) as [[] | e];
    [| discriminate].
  now split.
Qed.

(** The notices of the specification, for any [urlparse]. *)
Lemma notice_absolute (loc : string) :
  urlparse_netloc lib "http://example.org/x.png" = Ok loc ->
  nonempty loc = true ->
  print_enclosure lib (Example.notice "http://example.org/x.png") =
    ([enclosure_line "http://example.org/x.png" "12345 bytes" "image/png"],
     Ok tt).
Proof.
  intros Hloc Hnl. rewrite print_enclosure_cases.
  change (contains scrubbed_marker (Example.notice "http://example.org/x.png"))
    with true.
  change (get_part_field (Example.notice "http://example.org/x.png") "type")
    with (Ok (Some "image/png")).
  change (get_part_field (Example.notice "http://example.org/x.png") "size")
    with (Ok (Some "12345 bytes")).
  change (get_part_field (Example.notice "http://example.org/x.png") "url")
    with (Ok (Some "http://example.org/x.png")).
  cbn [negb truthy andb the]. now rewrite Hloc, Hnl.
Qed.

Lemma notice_relative :
  urlparse_netloc lib "../x.png" = Ok EmptyString ->
  print_enclosure lib (Example.notice "../x.png") = ([], Ok tt).
Proof.
  intros Hloc. rewrite print_enclosure_cases.
  change (contains scrubbed_marker (Example.notice "../x.png")) with true.
  change (get_part_field (Example.notice "../x.png") "type")
    with (Ok (Some "image/png")).
  change (get_part_field (Example.notice "../x.png") "size")
    with (Ok (Some "12345 bytes")).
  change (get_part_field (Example.notice "../x.png") "url")
    with (Ok (Some "../x.png")).
  cbn [negb truthy andb the]. now rewrite Hloc.
Qed.

End ItemEnclosures.

(** C6, amended.  Let [body] be the text of a message and [parts[1:]] the
    stripped segments after its delimiters.  The [enclosure] lines of the
    item come, in order, from the segments that the loop runs through:
    all of them when the item is rendered without exception.  Such a
    segment yields an enclosure line if and only if it contains the
    marker, the scan finds a non-empty value for each of the labels
    [type], [size] and [url], and the URL has a non-empty network
    location; the line then holds these three values, and a segment
    yields no second line.  A message rendered without exception whose
    only segment is the notice of the specification with the URL
    [http://example.org/x.png] has one enclosure, with the length
    [12345 bytes] and the type [image/png]; with the relative URL
    [../x.png] it has none. *)
Theorem enclosure_iff_fields
    (lib : Library) (archive : MailmanArchive) (mail : Message)
    (body : string) :
  payload mail = Text body ->
  let segments := tl (List.map strip (split_next_part body)) in
  let enclosures :=
    List.filter is_enclosure_line (lines (print_item lib archive mail)) in
  (exists emitted,
     enclosures = concat emitted /\
     Forall2
       (fun part printed =>
          (printed <> [] <->
           exists url size mime_type,
             enclosure_fields lib part url size mime_type) /\
          (forall url size mime_type,
             enclosure_fields lib part url size mime_type ->
             printed = [enclosure_line url size mime_type]))
       (take (length emitted) segments) emitted /\
     (outcome (print_item lib archive mail) = Ok tt ->
      length emitted = length segments)) /\
  (outcome (print_item lib archive mail) = Ok tt ->
   body = Example.attached (Example.notice "http://example.org/x.png") ->
   forall loc,
     urlparse_netloc lib "http://example.org/x.png" = Ok loc ->
     nonempty loc = true ->
     enclosures =
       [enclosure_line "http://example.org/x.png" "12345 bytes" "image/png"]) /\
  (outcome (print_item lib archive mail) = Ok tt ->
   body = Example.attached (Example.notice "../x.png") ->
   urlparse_netloc lib "../x.png" = Ok EmptyString ->
   enclosures = []).
Proof.
  intros Hbody segments enclosures.
  pose proof (item_enclosure_lines lib archive mail body Hbody) as Hlines.
  fold segments enclosures in Hlines.
  split; [| split].
  - assert (Hround : forall parts,
              Forall2
                (fun part printed =>
                   (printed <> [] <->
                    exists url size mime_type,
                      enclosure_fields lib part url size mime_type) /\
                   (forall url size mime_type,
                      enclosure_fields lib part url size mime_type ->
                      printed = [enclosure_line url size mime_type]))
                parts
                (List.map (fun part => lines (print_enclosure lib part)) parts)).
    { induction parts as [| part parts IH]; cbn [List.map]; constructor;
        [| exact IH].
      split; [split |].
      - apply print_enclosure_fields.
      - intros (url & size & mime_type & H).
        now rewrite (enclosure_fields_print _ _ _ _ _ H).
      - intros url size mime_type H.
        now rewrite (enclosure_fields_print _ _ _ _ _ H). }
    destruct (outcome (print_title_and_link lib archive mail)) as [[] | e] eqn:Ht.
    + destruct (for_each_prefix (print_enclosure lib) segments)
        as (n & Hn & Hl & Ho).
      exists (List.map (fun part => lines (print_enclosure lib part))
                (take n segments)).
      rewrite <- List.flat_map_concat_map, <- Hl.
      split; [exact Hlines |].
      rewrite length_map, length_take, Nat.min_l by exact Hn.
      split; [apply Hround |].
      intros Hok. apply Ho.
      now destruct (item_ok_enclosures_ok lib archive mail body Hbody Hok).
    + exists []. split; [exact Hlines |]. split; [constructor |].
      intros Hok.
      destruct (item_ok_enclosures_ok lib archive mail body Hbody Hok)
        as [Ht' _].
      congruence.
  - intros Hok Hb loc Hloc Hnl.
    destruct (item_ok_enclosures_ok lib archive mail body Hbody Hok)
      as [Ht _].
    rewrite Ht in Hlines. rewrite Hlines. unfold segments. rewrite Hb.
    change (tl (List.map strip
                  (split_next_part
                     (Example.attached
                        (Example.notice "http://example.org/x.png")))))
      with [Example.notice "http://example.org/x.png"].
    cbn [for_each]. now rewrite (notice_absolute lib loc Hloc Hnl).
  - intros Hok Hb Hloc.
    destruct (item_ok_enclosures_ok lib archive mail body Hbody Hok)
      as [Ht _].
    rewrite Ht in Hlines. rewrite Hlines. unfold segments. rewrite Hb.
    change (tl (List.map strip
                  (split_next_part
                     (Example.attached (Example.notice "../x.png")))))
      with [Example.notice "../x.png"].
    cbn [for_each]. now rewrite (notice_relative lib Hloc).
Qed.

(** The two notices of the specification in the body of a message, with
    the network locations that [urlparse] gives. *)
Lemma enclosure_witness :
  let absolute :=
    Example.dated (Example.attached (Example.notice "http://example.org/x.png")) in
  let relative :=
    Example.dated (Example.attached (Example.notice "../x.png")) in
  outcome (print_item Example.lib (Example.archive "Dev") absolute) = Ok tt /\
  List.filter is_enclosure_line
    (lines (print_item Example.lib (Example.archive "Dev") absolute)) =
    [enclosure_line "http://example.org/x.png" "12345 bytes" "image/png"] /\
  outcome (print_item Example.lib (Example.archive "Dev") relative) = Ok tt /\
  urlparse_netloc Example.lib "../x.png" = Ok EmptyString /\
  List.filter is_enclosure_line
    (lines (print_item Example.lib (Example.archive "Dev") relative)) = [].
Proof.
  cbv zeta.
  split; [reflexivity |]. split.
  - destruct (enclosure_iff_fields Example.lib (Example.archive "Dev")
                (Example.dated
                   (Example.attached (Example.notice "http://example.org/x.png")))
                (Example.attached (Example.notice "http://example.org/x.png"))
                eq_refl) as (_ & H & _).
    exact (H eq_refl eq_refl "example.org" eq_refl eq_refl).
  - split; [reflexivity |]. split; [reflexivity |].
    destruct (enclosure_iff_fields Example.lib (Example.archive "Dev")
                (Example.dated (Example.attached (Example.notice "../x.png")))
                (Example.attached (Example.notice "../x.png"))
                eq_refl) as (_ & _ & H).
    exact (H eq_refl eq_refl eq_refl).
Defined.

(** C6 as stated fails: the only segment of this message has the marker,
    a line for each of the three labels and a URL with a network location;
    the item is rendered without exception and holds no enclosure,
    because the value of [Type] is empty. *)
Lemma enclosure_counterexample :
  let part := Example.untyped_notice in
  let mail := Example.dated (Example.attached part) in
  let item := print_item Example.lib (Example.archive "Dev") mail in
  tl (List.map strip (split_next_part (Example.attached part))) = [part] /\
  contains scrubbed_marker part = true /\
  field_value part "type" EmptyString /\
  field_value part "size" "12345 bytes" /\
  field_value part "url" "http://example.org/x.png" /\
  urlparse_netloc Example.lib "http://example.org/x.png" = Ok "example.org" /\
  outcome item = Ok tt /\
  List.filter is_enclosure_line (lines item) = [].
Proof.
  cbv zeta. rewrite <- !get_part_field_iff. repeat split.
Qed.

(** ** Loading a month *)

Section LoadingFacts.

Variable lib : Library.

Lemma fetched_more_app (a b : list string) (w : World) :
  fetched_more b (fetched_more a w) = fetched_more (a ++ b) w.
Proof. unfold fetched_more. cbn. now rewrite app_assoc. Qed.

Lemma fetched_more_nil (w : World) : fetched_more [] w = w.
Proof. destruct w. unfold fetched_more. cbn. now rewrite app_nil_r. Qed.

(** When the three library calls succeed, [get_month] returns the mailbox
    and leaves the temporary directory as it found it. *)
Lemma get_month_ok (url data_gz data : string) (mbox : list string) (w : World) :
  urlopen_read lib url = Ok data_gz ->
  gunzip lib data_gz = Ok data ->
  mbox_open lib data = Ok mbox ->
  get_month lib url w = (fetched_more [url] w, Ok mbox).
Proof.
  intros Hf Hg Hm.
  unfold get_month, io_bind, fetch, mkstemp, io_lift, write_file, open_mbox,
    os_remove, io_ret.
  cbn [files fetched]. rewrite Hf, Hg.
  rewrite insert_insert_eq, lookup_insert_eq, Hm.
  cbn [files fetched]. rewrite lookup_insert_eq.
  rewrite delete_insert_id; [reflexivity |].
  apply not_elem_of_dom, is_fresh.
Qed.

(** A failure of the first call leaves no file either: [mkstemp] has not
    run. *)
Lemma get_month_fetch_fails (url : string) (e : exn) (w : World) :
  urlopen_read lib url = Raise e ->
  get_month lib url w = (fetched_more [url] w, Raise e).
Proof.
  intros Hf. unfold get_month, io_bind, fetch. now rewrite Hf.
Qed.

(** After [mkstemp], a failure of [gzip] leaves the temporary file. *)
Lemma get_month_gunzip_fails (url data_gz : string) (e : exn) (w : World) :
  urlopen_read lib url = Ok data_gz ->
  gunzip lib data_gz = Raise e ->
  get_month lib url w =
    ({| files := <[fresh (dom (files w)) := EmptyString]> (files w);
        fetched := fetched w ++ [url] |}, Raise e).
Proof.
  intros Hf Hg.
  unfold get_month, io_bind, fetch, mkstemp, io_lift.
  cbn [files fetched]. now rewrite Hf, Hg.
Qed.

(** A failure of [mailbox.mbox] leaves the file with the data. *)
Lemma get_month_mbox_fails (url data_gz data : string) (e : exn) (w : World) :
  urlopen_read lib url = Ok data_gz ->
  gunzip lib data_gz = Ok data ->
  mbox_open lib data = Raise e ->
  get_month lib url w =
    ({| files := <[fresh (dom (files w)) := data]> (files w);
        fetched := fetched w ++ [url] |}, Raise e).
Proof.
  intros Hf Hg Hm.
  unfold get_month, io_bind, fetch, mkstemp, io_lift, write_file, open_mbox.
  cbn [files fetched]. rewrite Hf, Hg.
  rewrite insert_insert_eq, lookup_insert_eq, Hm. reflexivity.
Qed.

Variable encoding : string.
Variable count : Z.

(** One round of the loop of [main]. *)
Lemma month_loop_step (url : string) (rest : list string)
    (month mails : list Message) (w : World) :
  month_of lib encoding url = Ok month ->
  month_loop lib encoding count (url :: rest) mails w =
  if (Z.of_nat (length (mails ++ rev month)) >=? count)%Z
  then (fetched_more [url] w, Ok (mails ++ rev month))
  else month_loop lib encoding count rest (mails ++ rev month)
         (fetched_more [url] w).
Proof.
  unfold month_of. intros H.
  destruct (urlopen_read lib url) as [data_gz |] eqn:Hf; [| discriminate].
  destruct (gunzip lib data_gz) as [data |] eqn:Hg; [| discriminate].
  destruct (mbox_open lib data) as [mbox |] eqn:Hm; [| discriminate].
  cbn [month_loop]. unfold io_bind at 1.
  rewrite (get_month_ok _ _ _ _ _ Hf Hg Hm).
  unfold io_bind at 1, io_lift. rewrite H.
  now destruct (Z.of_nat (length (mails ++ rev month)) >=? count)%Z.
Qed.

End LoadingFacts.

(** ** C2 and C5: the selection *)

Lemma map_result_cons {A B : Type} (f : A -> result B) (x : A) (l : list A)
    (ys : list B) :
  map_result f (x :: l) = Ok ys ->
  exists y ys', f x = Ok y /\ map_result f l = Ok ys' /\ ys = y :: ys'.
Proof.
  cbn [map_result]. destruct (f x) as [y |]; [| discriminate].
  destruct (map_result f l) as [ys' |]; [| discriminate].
  intros [= <-]. eauto.
Qed.

Lemma map_result_length {A B : Type} (f : A -> result B) (l : list A)
    (ys : list B) :
  map_result f l = Ok ys -> length ys = length l.
Proof.
  revert ys. induction l as [| x l IH]; intros ys.
  - now intros [= <-].
  - intros H. apply map_result_cons in H as (y & ys' & _ & H & ->).
    cbn. now rewrite (IH _ H).
Qed.

Lemma newest_first_cons (month : list Message) (loaded : list (list Message)) :
  newest_first (month :: loaded) = rev month ++ newest_first loaded.
Proof. reflexivity. Qed.

Lemma newest_first_length (loaded : list (list Message)) :
  length (newest_first loaded) = length (concat loaded).
Proof.
  induction loaded as [| m loaded IH]; [reflexivity |].
  rewrite newest_first_cons. cbn [concat].
  now rewrite !length_app, length_rev, IH.
Qed.

Section Selection.

Variable lib : Library.
Variable encoding : string.
Variable count : Z.

(** The loop stops at the first month, counted from one, after which the
    accumulator holds [count] mails or more, or at the last month. *)
Lemma month_loop_spec (months : list string) :
  forall (loaded : list (list Message)) (mails : list Message) (w : World),
    map_result (month_of lib encoding) months = Ok loaded ->
    exists k,
      month_loop lib encoding count months mails w =
        (fetched_more (take k months) w,
         Ok (mails ++ newest_first (take k loaded))) /\
      k <= length months /\
      (months <> [] -> 1 <= k) /\
      (k < length months ->
       (count <= Z.of_nat (length (mails ++ newest_first (take k loaded))))%Z) /\
      (forall j, 1 <= j < k ->
       (Z.of_nat (length (mails ++ newest_first (take j loaded))) < count)%Z).
Proof.
  induction months as [| url rest IH]; intros loaded mails w Hl.
  - injection Hl as <-. exists 0. cbn [month_loop take newest_first].
    unfold io_ret. rewrite fetched_more_nil.
    change (newest_first []) with (@nil Message). rewrite app_nil_r.
    repeat split; cbn [length]; try lia. congruence.
  - apply map_result_cons in Hl as (month & loaded' & Hm & Hl & ->).
    rewrite (month_loop_step _ _ _ _ _ _ _ _ Hm).
    rewrite Z.geb_leb.
    destruct (Z.leb_spec count (Z.of_nat (length (mails ++ rev month))))
      as [Hge | Hlt].
    + exists 1. cbn [take]. rewrite take_0.
      rewrite newest_first_cons.
      change (newest_first []) with (@nil Message). rewrite app_nil_r.
      repeat split; cbn [length]; try lia.
    + destruct (IH loaded' (mails ++ rev month) (fetched_more [url] w) Hl)
        as (k & Heq & Hk & _ & Hstop & Hmin).
      exists (S k). cbn [take]. rewrite newest_first_cons.
      rewrite Heq, fetched_more_app, <- app_assoc.
      repeat split; cbn [length]; try lia.
      * intros Hk'. rewrite app_assoc. apply Hstop. lia.
      * intros [| j] Hj; [lia |]. cbn [take]. rewrite newest_first_cons.
        destruct j as [| j].
        -- rewrite take_0.
           change (newest_first []) with (@nil Message). now rewrite app_nil_r.
        -- rewrite app_assoc. apply Hmin. lia.
Qed.

Lemma trim_nonneg (mails : list Message) :
  (0 <= count)%Z -> trim count mails = take (Z.to_nat count) mails.
Proof.
  intros Hc. unfold trim, slice_to. rewrite Z.gtb_ltb.
  destruct (Z.ltb_spec count (Z.of_nat (length mails))) as [Hlt | Hge].
  - destruct (Z.ltb_spec count 0); [lia | reflexivity].
  - rewrite take_ge; [reflexivity | lia].
Qed.

Lemma trim_negative (mails : list Message) :
  (count < 0)%Z ->
  trim count mails = take (length mails - Z.to_nat (- count)) mails.
Proof.
  intros Hc. unfold trim, slice_to. rewrite Z.gtb_ltb.
  destruct (Z.ltb_spec count (Z.of_nat (length mails))) as [_ | Hge]; [| lia].
  destruct (Z.ltb_spec count 0); [| lia].
  f_equal. lia.
Qed.

Lemma newest_first_take (k : nat) (loaded : list (list Message)) :
  newest_first loaded =
  newest_first (take k loaded) ++ newest_first (drop k loaded).
Proof.
  unfold newest_first.
  now rewrite <- concat_app, <- List.map_app, take_drop.
Qed.

End Selection.

Section SelectionTheorems.

Variable lib : Library.
Variable encoding : string.
Variable count : Z.

Lemma select_mails_spec (months : list string) (loaded : list (list Message))
    (w : World) :
  map_result (month_of lib encoding) months = Ok loaded ->
  exists k,
    select_mails lib encoding count months w =
      (fetched_more (take k months) w,
       Ok (trim count (newest_first (take k loaded)))) /\
    k <= length months /\
    (months <> [] -> 1 <= k) /\
    (k < length months ->
     (count <= Z.of_nat (length (newest_first (take k loaded))))%Z) /\
    (forall j, 1 <= j < k ->
     (Z.of_nat (length (newest_first (take j loaded))) < count)%Z) /\
    ((0 <= count)%Z ->
     trim count (newest_first (take k loaded)) =
       take (Z.to_nat count) (newest_first loaded)).
Proof.
  intros Hl.
  destruct (month_loop_spec lib encoding count months loaded [] w Hl)
    as (k & Heq & Hk & Hpos & Hstop & Hmin).
  cbn [app] in Heq, Hstop, Hmin.
  exists k. unfold select_mails, io_bind. rewrite Heq. unfold io_ret.
  repeat split; try assumption.
  intros Hc. rewrite trim_nonneg by exact Hc.
  rewrite (newest_first_take k loaded).
  destruct (Nat.eq_dec k (length months)) as [-> | Hne].
  - rewrite <- (map_result_length _ _ _ Hl).
    rewrite drop_all, (take_ge loaded (length loaded)) by lia.
    change (newest_first []) with (@nil Message). now rewrite app_nil_r.
  - rewrite take_app_le; [reflexivity |].
    assert (Hlt : k < length months) by lia. specialize (Hstop Hlt). lia.
Qed.

(** C5.  The months are opened in the order of the list; each month's
    messages are appended in reverse order; the loop opens the months up
    to the first one after which [count] mails or more are collected (all
    of them when that never happens) and no month after it, so the first
    month is always opened.  The result is the collected list trimmed:
    for [count >= 0] the first [count] mails of all months, each
    reversed, in the order of the months; no date is compared.  With
    months of 3 and 2 messages and [count = 4] the result is the first
    month reversed and the last message of the second month, and the
    months after the second are not opened. *)
Theorem selection_order :
  (forall months loaded w,
     map_result (month_of lib encoding) months = Ok loaded ->
     exists k,
       select_mails lib encoding count months w =
         (fetched_more (take k months) w,
          Ok (trim count (newest_first (take k loaded)))) /\
       k <= length months /\
       (months <> [] -> 1 <= k) /\
       (k < length months ->
        (count <= Z.of_nat (length (newest_first (take k loaded))))%Z) /\
       (forall j, 1 <= j < k ->
        (Z.of_nat (length (newest_first (take j loaded))) < count)%Z) /\
       ((0 <= count)%Z ->
        trim count (newest_first (take k loaded)) =
          take (Z.to_nat count) (newest_first loaded))) /\
  (forall u1 u2 rest a b c d e w,
     month_of lib encoding u1 = Ok [a; b; c] ->
     month_of lib encoding u2 = Ok [d; e] ->
     count = 4%Z ->
     select_mails lib encoding count (u1 :: u2 :: rest) w =
       (fetched_more [u1; u2] w, Ok [c; b; a; e])).
Proof.
  split; [apply select_mails_spec |].
  intros u1 u2 rest a b c d e w H1 H2 ->.
  unfold select_mails, io_bind.
  rewrite (month_loop_step _ _ _ _ _ _ _ _ H1). cbn [app rev length Z.geb].
  rewrite (month_loop_step _ _ _ _ _ _ _ _ H2).
  now rewrite fetched_more_app.
Qed.

(** C2 fails on the code.  With a negative [count] the loop stops after
    the first month, and the trim is the slice [mails[:count]], which
    drops the last [-count] mails instead of all of them: the selection
    returns the first month reversed without its last [-count] messages,
    and this is not empty when the month holds more than [-count]. *)
Theorem selection_negative_count (months : list string)
    (first : list Message) (rest : list (list Message)) (w : World) :
  map_result (month_of lib encoding) months = Ok (first :: rest) ->
  (count < 0)%Z ->
  exists mails,
    select_mails lib encoding count months w =
      (fetched_more (take 1 months) w, Ok mails) /\
    mails = take (length first - Z.to_nat (- count)) (rev first) /\
    length mails = length first - Z.to_nat (- count) /\
    (Z.to_nat (- count) < length first -> mails <> []).
Proof.
  intros Hl Hc.
  destruct (select_mails_spec months (first :: rest) w Hl)
    as (k & Heq & Hk & Hpos & Hstop & Hmin & _).
  assert (Hk1 : k = 1).
  { assert (Hne : months <> []) by (intros ->; discriminate Hl).
    specialize (Hpos Hne).
    destruct k as [| [| k]]; [lia | reflexivity |].
    specialize (Hmin 1 ltac:(lia)). lia. }
  subst k. cbn [take] in Heq. rewrite take_0, newest_first_cons in Heq.
  change (newest_first []) with (@nil Message) in Heq.
  rewrite app_nil_r, trim_negative, length_rev in Heq by exact Hc.
  eexists. split; [exact Heq |]. split; [reflexivity |].
  assert (Hlen : length (take (length first - Z.to_nat (- count)) (rev first)) =
                 length first - Z.to_nat (- count))
    by (rewrite length_take, length_rev; lia).
  split; [exact Hlen |].
  intros Hlt Hnil. rewrite Hnil in Hlen. cbn [length] in Hlen. lia.
Qed.

End SelectionTheorems.

(** Three months of 3, 2 and 1 messages and [count = 4]. *)
Lemma selection_order_witness :
  month_of Example.lib "ascii" Example.month1 =
    Ok [Example.titled "a"; Example.titled "b"; Example.titled "c"] /\
  month_of Example.lib "ascii" Example.month2 =
    Ok [Example.titled "d"; Example.titled "e"] /\
  select_mails Example.lib "ascii" 4
    [Example.month1; Example.month2; Example.month3] Example.world0 =
  (fetched_more [Example.month1; Example.month2] Example.world0,
   Ok [Example.titled "c"; Example.titled "b"; Example.titled "a";
       Example.titled "e"]).
Proof.
  split; [reflexivity |]. split; [reflexivity |].
  apply (proj2 (selection_order Example.lib "ascii" 4) _ _ _
           (Example.titled "a") (Example.titled "b") (Example.titled "c")
           (Example.titled "d") (Example.titled "e")); reflexivity.
Defined.

(** [count = -1] and a first month of three messages: two messages are
    selected, where the claim asks for none. *)
Lemma selection_negative_count_witness :
  map_result (month_of Example.lib "ascii")
    [Example.month1; Example.month2] =
    Ok [[Example.titled "a"; Example.titled "b"; Example.titled "c"];
        [Example.titled "d"; Example.titled "e"]] /\
  (-1 < 0)%Z /\
  select_mails Example.lib "ascii" (-1)
    [Example.month1; Example.month2] Example.world0 =
    (fetched_more [Example.month1] Example.world0,
     Ok [Example.titled "c"; Example.titled "b"]).
Proof.
  split; [reflexivity |]. split; [lia |].
  destruct (selection_negative_count Example.lib "ascii" (-1)
              [Example.month1; Example.month2]
              [Example.titled "a"; Example.titled "b"; Example.titled "c"]
              [[Example.titled "d"; Example.titled "e"]]
              Example.world0 eq_refl ltac:(lia))
    as (mails & Heq & -> & _).
  exact Heq.
Defined.

(** ** C8: the temporary file of [get_month] *)

(** C8 fails on the code.  When the month's data is fetched and [gzip]
    raises, [get_month] ends with that exception and the file made by
    [mkstemp], which did not exist before, is still there: nothing
    removes it on this path. *)
Theorem get_month_leaves_temp_file
    (lib : Library) (url data_gz : string) (e : exn) (w : World) :
  urlopen_read lib url = Ok data_gz ->
  gunzip lib data_gz = Raise e ->
  files w !! fresh (dom (files w)) = None /\
  snd (get_month lib url w) = Raise e /\
  files (fst (get_month lib url w)) !! fresh (dom (files w)) =
    Some EmptyString.
Proof.
  intros Hf Hg. rewrite (get_month_gunzip_fails _ _ _ _ _ Hf Hg).
  cbn [fst snd files]. rewrite lookup_insert_eq.
  split; [apply not_elem_of_dom, is_fresh | split; reflexivity].
Qed.

(** A month whose URL serves an error page instead of gzip data. *)
Lemma get_month_leak_witness :
  urlopen_read Example.lib Example.broken_month =
    Ok "<html>404 Not Found</html>" /\
  gunzip Example.lib "<html>404 Not Found</html>" =
    Raise (LibraryError "gzip") /\
  files Example.world0 = ∅ /\
  exists tmp,
    files (fst (get_month Example.lib Example.broken_month Example.world0))
      !! tmp = Some EmptyString.
Proof.
  split; [reflexivity |]. split; [reflexivity |]. split; [reflexivity |].
  exists (fresh (dom (files Example.world0))).
  apply (get_month_leaves_temp_file Example.lib Example.broken_month
           "<html>404 Not Found</html>" (LibraryError "gzip")
           Example.world0 eq_refl eq_refl).
Defined.

(** ** C9: the title of the archive *)

(** C9 fails on the code.  On an index page with a head and no title
    element [get_title] raises [AttributeError], and [printrss] ends with
    that exception after the four lines that precede the title. *)
Theorem get_title_raises_without_title
    (archive : MailmanArchive) (html head : Node) :
  child_tag "html" (_soup archive) = Some html ->
  child_tag "head" html = Some head ->
  child_tag "title" head = None ->
  get_title archive = Raise AttributeError /\
  forall lib mails,
    printrss lib archive mails =
      ([xml_declaration; rss_open; "<channel>"; "<language>ja-JP</language>"],
       Raise AttributeError).
Proof.
  intros Hhtml Hhead Htitle.
  assert (Hg : get_title archive = Raise AttributeError).
  { unfold get_title. cbn [getattr_tag]. rewrite Hhtml. cbn [getattr_tag].
    rewrite Hhead. cbn [getattr_tag]. now rewrite Htitle. }
  split; [exact Hg |].
  intros lib mails.
  assert (Hh : print_channel_head archive =
               ([xml_declaration; rss_open; "<channel>";
                 "<language>ja-JP</language>"], Raise AttributeError)).
  { unfold print_channel_head. rewrite !out_bind_print.
    cbn [lines outcome fst snd]. now rewrite out_bind_lift, Hg. }
  unfold printrss. now rewrite Hh.
Qed.

Lemma get_title_witness :
  get_title {| archive_url := Example.base; _soup := Example.untitled_page |} =
    Raise AttributeError /\
  get_title (Example.archive "Dev list") = Ok (Some "Dev list").
Proof.
  split; [| reflexivity].
  apply (get_title_raises_without_title
           {| archive_url := Example.base; _soup := Example.untitled_page |}
           (Tag "html" [] [Tag "head" [] [];
                           Tag "body" [] [NavigableString "x"]])
           (Tag "head" [] []) eq_refl eq_refl eq_refl).
Defined.

(** With a title element whose only child is a string, [get_title]
    returns that string. *)
Lemma get_title_of_titled_page (url t : string) :
  get_title {| archive_url := url; _soup := Example.titled_page t |} =
  Ok (Some t).
Proof. reflexivity. Qed.

(** ** C10: the URL of the archive *)

Lemma last_char_append (stem : string) (c : ascii) :
  last_char (stem +:+ String c EmptyString) = Ok c.
Proof.
  induction stem as [| x stem IH]; [reflexivity |].
  rewrite append_cons. cbn [last_char]. rewrite IH.
  now destruct stem.
Qed.

Lemma last_char_Ok (s : string) (c : ascii) :
  last_char s = Ok c -> exists stem, s = stem +:+ String c EmptyString.
Proof.
  induction s as [| x s IH]; [discriminate |].
  cbn [last_char]. destruct s as [| y s].
  - intros [= ->]. now exists EmptyString.
  - intros H. destruct (IH H) as (stem & ->). now exists (String x stem).
Qed.

Lemma last_char_nonempty (s : string) :
  s <> EmptyString -> exists c, last_char s = Ok c.
Proof.
  induction s as [| x s IH]; [congruence |]. intros _.
  destruct s as [| y s]; [now exists x |].
  destruct IH as (c & Hc); [discriminate |]. exists c. exact Hc.
Qed.

(** C10.  On the empty string the constructor raises [IndexError] and
    opens no URL.  On a non-empty string it opens one URL, the
    normalized one, which ends in a slash: the argument itself when that
    ends in a slash, the argument followed by a slash otherwise; an
    archive is built exactly when that fetch succeeds, and it stores the
    normalized URL. *)
Theorem archive_init_normalizes (lib : Library) :
  (forall w, MailmanArchive_init lib EmptyString w = (w, Raise IndexError)) /\
  (forall url w,
     url <> EmptyString ->
     exists url',
       MailmanArchive_init lib url w =
         (fetched_more [url'] w,
          match urlopen_read lib url' with
          | Ok page => Ok {| archive_url := url'; _soup := html_parser lib page |}
          | Raise e => Raise e
          end) /\
       (exists stem, url' = stem +:+ "/") /\
       ((exists stem, url = stem +:+ "/") -> url' = url) /\
       ((~ exists stem, url = stem +:+ "/") -> url' = url +:+ "/")).
Proof.
  split; [reflexivity |].
  intros url w Hne.
  destruct (last_char_nonempty url Hne) as (c & Hc).
  exists (if negb (Ascii.eqb c "/") then url +:+ "/" else url).
  split.
  - unfold MailmanArchive_init, io_bind, io_lift, fetch, io_ret.
    rewrite Hc. unfold fetched_more.
    now destruct (urlopen_read lib
                    (if negb (Ascii.eqb c "/") then url +:+ "/" else url)).
  - destruct (Ascii.eqb_spec c "/") as [-> | Hc']; cbn [negb].
    + split; [now apply last_char_Ok | split; [reflexivity |]].
      intros H. elim H. now apply last_char_Ok.
    + split; [now exists url | split; [| reflexivity]].
      intros (stem & ->). rewrite last_char_append in Hc. congruence.
Qed.

Lemma archive_init_witness :
  "http://lists.example.org/pipermail/dev" <> EmptyString /\
  snd (MailmanArchive_init Example.lib
         "http://lists.example.org/pipermail/dev" Example.world0) =
    Ok {| archive_url := "http://lists.example.org/pipermail/dev/";
          _soup := Tag "[document]" [] [] |}.
Proof.
  split; [discriminate |].
  destruct (proj2 (archive_init_normalizes Example.lib)
              "http://lists.example.org/pipermail/dev" Example.world0)
    as (url' & Heq & _ & _ & Happ); [discriminate |].
  rewrite Heq, Happ; [reflexivity |].
  intros (stem & H).
  apply (f_equal last_char) in H. rewrite last_char_append in H.
  discriminate H.
Defined.

(** * Further properties *)

(** ** [get_month_archives] *)

Lemma drop_chars_append (a b : string) :
  drop_chars (String.length a) (a +:+ b) = b.
Proof.
  induction a as [| x a IH]; [now destruct b |].
  rewrite append_cons. exact IH.
Qed.

Lemma drop_chars_suffix (n : nat) (s : string) :
  exists stem, s = stem +:+ drop_chars n s.
Proof.
  revert s. induction n as [| n IH]; intros s.
  - exists EmptyString. now destruct s.
  - destruct s as [| x s]; [now exists EmptyString |].
    destruct (IH s) as (stem & Hs). exists (String x stem).
    rewrite append_cons. cbn [drop_chars]. now rewrite <- Hs.
Qed.

Lemma endswith_iff (s suffix : string) :
  endswith s suffix = true <-> exists stem, s = stem +:+ suffix.
Proof.
  unfold endswith. split.
  - intros H. apply andb_true_iff in H as [_ H]. apply String.eqb_eq in H.
    destruct (drop_chars_suffix (String.length s - String.length suffix) s)
      as (stem & Hs).
    exists stem. now rewrite H in Hs.
  - intros (stem & ->). rewrite length_append. apply andb_true_iff. split.
    + apply Nat.leb_le. lia.
    + replace (String.length stem + String.length suffix - String.length suffix)
        with (String.length stem) by lia.
      rewrite drop_chars_append. apply String.eqb_refl.
Qed.

Lemma prefix_append_l (p a b : string) :
  String.prefix p a = true -> String.prefix p (a +:+ b) = true.
Proof.
  revert a. induction p as [| c p IH]; intros a H; [apply prefix_empty |].
  destruct a as [| x a]; [discriminate |].
  rewrite append_cons. cbn [String.prefix] in *.
  destruct (Ascii.ascii_dec c x); [now apply IH | discriminate].
Qed.

Lemma contains_append_l (sub a b : string) :
  contains sub a = true -> contains sub (a +:+ b) = true.
Proof.
  induction a as [| x a IH]; cbn [contains].
  - rewrite orb_false_r. intros H. destruct sub; [| discriminate].
    destruct b; reflexivity.
  - intros H. rewrite append_cons. cbn [contains].
    apply orb_true_iff in H as [H | H]; apply orb_true_iff.
    + left. now apply (prefix_append_l sub (String x a) b).
    + right. now apply IH.
Qed.

(** X1.  Every URL that [get_month_archives] returns is the archive URL
    followed by a name that contains [txt] and ends in [.gz]. *)
Theorem month_archive_urls_shape (self : MailmanArchive) :
  Forall (fun url =>
            exists name,
              url = archive_url self +:+ name /\
              contains "txt" name = true /\
              exists stem, name = stem +:+ ".gz")
    (get_month_archives self).
Proof.
  unfold get_month_archives. apply List.Forall_map.
  apply List.Forall_forall. intros month Hin.
  assert (Hm : is_month_anchor month = true).
  { unfold find_all in Hin. destruct (_soup self); [destruct Hin |].
    now apply List.filter_In in Hin as [_ Hm]. }
  unfold is_month_anchor in Hm. apply andb_true_iff in Hm as [_ Hm].
  unfold month_url.
  destruct (tag_attr "href" month) as [href |]; [| discriminate].
  cbn [the].
  destruct (endswith href ".gz") eqn:He; cbn [negb].
  - exists href. repeat split; [exact Hm |]. now apply endswith_iff.
  - exists (href +:+ ".gz"). repeat split.
    + now apply contains_append_l.
    + now exists href.
Qed.

Lemma month_anchors_of_list (hrefs : list string) :
  List.filter is_month_anchor
    (List.flat_map self_and_descendants (List.map anchor hrefs)) =
  List.map anchor (List.filter (contains "txt") hrefs).
Proof.
  induction hrefs as [| h hrefs IH]; [reflexivity |].
  cbn [List.map List.flat_map self_and_descendants anchor app List.filter].
  change (is_month_anchor (Tag "a" [("href", h)] [NavigableString h]))
    with (contains "txt" h).
  change (is_month_anchor (NavigableString h)) with false.
  fold (anchor h). cbn [app]. rewrite IH.
  now destruct (contains "txt" h).
Qed.

(** X2.  On an index page whose body is a list of anchors the result
    lists, in the order of the page, the links whose [href] contains
    [txt]; each is completed by [.gz] when it does not end so, and
    prefixed with the archive URL.  The other links are dropped. *)
Theorem month_archives_of_index_page (url title : string) (hrefs : list string) :
  get_month_archives {| archive_url := url; _soup := index_page title hrefs |} =
  List.map
    (fun href => url +:+ (if endswith href ".gz" then href else href +:+ ".gz"))
    (List.filter (contains "txt") hrefs).
Proof.
  unfold get_month_archives, index_page, find_all. cbn [_soup archive_url].
  cbn [List.flat_map self_and_descendants app List.filter].
  rewrite !app_nil_r.
  change (is_month_anchor (Tag "html" ?a ?c)) with false.
  change (is_month_anchor (Tag "head" ?a ?c)) with false.
  change (is_month_anchor (Tag "title" ?a ?c)) with false.
  change (is_month_anchor (NavigableString title)) with false.
  change (is_month_anchor (Tag "body" ?a ?c)) with false.
  cbn iota. rewrite month_anchors_of_list, List.map_map.
  apply List.map_ext. intros href. unfold month_url, anchor.
  cbn [tag_attr attr_get the archive_url].
  change (String.eqb "href" "href") with true. cbn iota. cbn [the].
  now destruct (endswith href ".gz").
Qed.

(** ** The frame of the document *)

Lemma count_line_app (l : string) (a b : list string) :
  count_line l (a ++ b) = count_line l a + count_line l b.
Proof. unfold count_line. now rewrite List.filter_app, length_app. Qed.

Lemma count_line_none (l : string) (ls : list string) :
  Forall (fun x => String.eqb l x = false) ls -> count_line l ls = 0.
Proof. intros H. unfold count_line. now rewrite filter_none. Qed.

Lemma count_line_zero_not_in (l : string) (ls : list string) :
  count_line l ls = 0 -> ~ In l ls.
Proof.
  unfold count_line. intros H Hin.
  assert (Hf : In l (List.filter (String.eqb l) ls)).
  { apply List.filter_In. split; [exact Hin | apply String.eqb_refl]. }
  destruct (List.filter (String.eqb l) ls); [destruct Hf | discriminate].
Qed.

Lemma not_frame_line (l x : string) :
  In l ["<item>"; "</item>"; "</channel>"; "</rss>"] ->
  frame_line x = false -> String.eqb l x = false.
Proof.
  unfold frame_line. intros Hl Hx.
  repeat (apply orb_false_iff in Hx as [Hx ?]).
  rewrite String.eqb_sym.
  destruct Hl as [<- | [<- | [<- | [<- | []]]]]; assumption.
Qed.

Section Frame.

Variable lib : Library.
Variable archive : MailmanArchive.

Local Ltac plain := apply List.Forall_cons; [reflexivity | apply List.Forall_nil].

Lemma title_and_link_plain (mail : Message) :
  Forall (fun x => frame_line x = false)
    (lines (print_title_and_link lib archive mail)).
Proof.
  unfold print_title_and_link. apply Forall_lines_when.
  apply Forall_lines_bind; [constructor | intros title].
  apply Forall_lines_bind; [plain | intros _].
  destruct (parsed_date lib mail), (match_subject title);
    try apply List.Forall_nil.
  apply Forall_lines_bind; [constructor | intros segment]. plain.
Qed.

Lemma enclosures_plain (parts : list string) :
  Forall (fun x => frame_line x = false)
    (lines (for_each (print_enclosure lib) parts)).
Proof.
  apply Forall_lines_for_each. intros part.
  eapply Forall_impl; [apply print_enclosure_lines |].
  intros l (url & size & mime_type & ->). reflexivity.
Qed.

Lemma channel_head_plain :
  Forall (fun x => frame_line x = false) (lines (print_channel_head archive)).
Proof.
  unfold print_channel_head.
  do 4 (apply Forall_lines_bind; [plain | intros _]).
  apply Forall_lines_bind; [constructor | intros title].
  apply Forall_lines_bind.
  - apply Forall_lines_when. apply Forall_lines_bind; [| intros _]; plain.
  - intros _. plain.
Qed.

Lemma count_line_plain (l : string) (ls : list string) :
  In l ["<item>"; "</item>"; "</channel>"; "</rss>"] ->
  Forall (fun x => frame_line x = false) ls -> count_line l ls = 0.
Proof.
  intros Hl Hls. apply count_line_none.
  eapply Forall_impl; [exact Hls |]. intros x. now apply not_frame_line.
Qed.

Lemma closes_with_bind (l0 : string) {A B : Type} (m : Out A) (k : A -> Out B) :
  Forall (fun x => frame_line x = false) (lines m) ->
  (forall a, closes_with l0 (k a)) ->
  closes_with l0 (out_bind m k).
Proof.
  intros Hm Hk l Hl. rewrite lines_bind, outcome_bind, count_line_app.
  rewrite (count_line_plain l (lines m) Hl Hm).
  destruct (outcome m) as [a | e]; [apply (Hk a l Hl) |].
  now rewrite andb_false_r.
Qed.

Lemma closes_with_print (l0 : string) : closes_with l0 (print l0).
Proof.
  intros l _. cbn [print lines outcome fst snd is_ok]. rewrite andb_true_r.
  unfold count_line. cbn [List.filter]. now destruct (String.eqb l l0).
Qed.

(** The item closes exactly when the rest of the item ends well. *)
Lemma item_rest_closes (mail : Message) :
  closes_with "</item>" (item_rest lib archive mail).
Proof.
  unfold item_rest.
  apply closes_with_bind; [apply title_and_link_plain | intros _].
  apply closes_with_bind; [apply Forall_lines_when; plain | intros _].
  apply closes_with_bind; [constructor | intros body].
  apply closes_with_bind; [plain | intros _].
  apply closes_with_bind; [apply enclosures_plain | intros _].
  apply closes_with_print.
Qed.

Lemma print_item_frame (mail : Message) :
  count_line "<item>" (lines (print_item lib archive mail)) = 1 /\
  count_line "</item>" (lines (print_item lib archive mail)) =
    (if is_ok (outcome (print_item lib archive mail)) then 1 else 0) /\
  count_line "</channel>" (lines (print_item lib archive mail)) = 0 /\
  count_line "</rss>" (lines (print_item lib archive mail)) = 0.
Proof.
  rewrite print_item_split. cbn [lines outcome fst snd].
  pose proof (item_rest_closes mail) as Hc.
  change ("<item>" :: ?r) with (["<item>"] ++ r).
  rewrite !count_line_app.
  rewrite !(Hc _) by (simpl; tauto).
  destruct (truthy (from mail)), (truthy (date mail));
    destruct (is_ok (outcome (item_rest lib archive mail))); repeat split.
Qed.

End Frame.

Section Document.

Variable lib : Library.
Variable archive : MailmanArchive.

(** The items of a list of mails: one opening line per item begun, one
    closing line per item finished; the item that raises stays open. *)
Lemma items_frame (mails : list Message) :
  let items := for_each (print_item lib archive) mails in
  count_line "<item>" (lines items) =
    count_line "</item>" (lines items) +
    (if is_ok (outcome items) then 0 else 1) /\
  count_line "<item>" (lines items) <= length mails /\
  (is_ok (outcome items) = true ->
   count_line "<item>" (lines items) = length mails) /\
  count_line "</channel>" (lines items) = 0 /\
  count_line "</rss>" (lines items) = 0.
Proof.
  induction mails as [| m rest IH]; [repeat split; cbn; lia |].
  cbn zeta in *. cbn [for_each].
  rewrite lines_bind, outcome_bind, !count_line_app.
  destruct (print_item_frame lib archive m) as (Ho & Hc & Hch & Hr).
  rewrite Ho, Hc, Hch, Hr.
  destruct IH as (IH1 & IH2 & IH3 & IH4 & IH5).
  destruct (outcome (print_item lib archive m)) as [[] | e];
    cbn [is_ok length].
  - rewrite IH4, IH5. repeat split; try lia.
    intros Hok. rewrite (IH3 Hok). lia.
  - repeat split; cbn; try lia; try discriminate.
Qed.

Lemma mail_loop_items (flag : bool) (mails : list Message) :
  outcome (mail_loop lib archive flag mails) =
    outcome (for_each (print_item lib archive) mails) /\
  forall l,
    In l ["<item>"; "</item>"; "</channel>"; "</rss>"] ->
    count_line l (lines (mail_loop lib archive flag mails)) =
    count_line l (lines (for_each (print_item lib archive) mails)).
Proof.
  destruct flag; [now rewrite mail_loop_rendered |].
  destruct mails as [| m rest]; [split; reflexivity |].
  rewrite mail_loop_first, print_channel_pubdate_eq, out_bind_print.
  cbn [lines outcome fst snd]. split; [reflexivity |].
  intros l Hl.
  change (?x :: lines ?r) with ([x] ++ lines r).
  rewrite count_line_app, (count_line_plain l [_] Hl); [reflexivity |].
  apply List.Forall_cons; [reflexivity | apply List.Forall_nil].
Qed.

(** The lines and the outcome of [printrss] from those of its parts. *)
Lemma printrss_parts (mails : list Message) :
  printrss lib archive mails =
  (lines (print_channel_head archive) ++
   (if is_ok (outcome (print_channel_head archive))
    then lines (mail_loop lib archive false mails) ++
         (if is_ok (outcome (mail_loop lib archive false mails))
          then ["</channel>"; "</rss>"] else [])
    else []),
   match outcome (print_channel_head archive) with
   | Raise e => Raise e
   | Ok _ => outcome (mail_loop lib archive false mails)
   end).
Proof.
  unfold printrss.
  destruct (print_channel_head archive) as [lh [[] | e]];
    destruct (mail_loop lib archive false mails) as [ll [[] | e']];
    cbn; rewrite ?app_nil_r; reflexivity.
Qed.

Lemma channel_head_first_lines :
  exists rest,
    lines (print_channel_head archive) =
    [xml_declaration; rss_open; "<channel>"; "<language>ja-JP</language>"] ++
    rest.
Proof.
  unfold print_channel_head. rewrite !out_bind_print.
  cbn [lines fst]. eexists. reflexivity.
Qed.

End Document.

(** X3.  In every run of [printrss], also one that raises, each item
    begun is closed except possibly the last one: the opening lines
    exceed the closing lines by at most one, and there are at most as
    many as mails.  A run that ends well prints one item per mail, each
    of them closed. *)
Theorem items_are_balanced
    (lib : Library) (archive : MailmanArchive) (mails : list Message) :
  let out := lines (printrss lib archive mails) in
  count_line "</item>" out <= count_line "<item>" out /\
  count_line "<item>" out <= count_line "</item>" out + 1 /\
  count_line "<item>" out <= length mails /\
  (outcome (printrss lib archive mails) = Ok tt ->
   count_line "<item>" out = length mails /\
   count_line "</item>" out = length mails).
Proof.
  cbn zeta. rewrite printrss_parts. cbn [lines outcome fst snd].
  assert (Hh : forall l,
            In l ["<item>"; "</item>"; "</channel>"; "</rss>"] ->
            count_line l (lines (print_channel_head archive)) = 0)
    by (intros l Hl; apply (count_line_plain l _ Hl), channel_head_plain).
  destruct (mail_loop_items lib archive false mails) as (Hout & Hcnt).
  destruct (items_frame lib archive mails) as (H1 & H2 & H3 & _).
  cbn zeta in H1, H2, H3.
  rewrite !count_line_app.
  rewrite !Hh by (simpl; tauto).
  destruct (outcome (print_channel_head archive)) as [[] | e]; cbn [is_ok].
  - rewrite !count_line_app, !Hcnt, Hout by (simpl; tauto).
    destruct (outcome (for_each (print_item lib archive) mails))
      as [[] | e']; cbn [is_ok] in *.
    + change (count_line "<item>" ["</channel>"; "</rss>"]) with 0.
      change (count_line "</item>" ["</channel>"; "</rss>"]) with 0.
      specialize (H3 eq_refl). repeat split; lia.
    + change (count_line ?l []) with 0.
      repeat split; try lia; discriminate.
  - change (count_line ?l []) with 0.
    repeat split; try lia; discriminate.
Qed.

(** X4.  Every run of [printrss] starts with the XML declaration, the
    [rss] and [channel] opening lines and the language.  The closing
    lines [</channel>] and [</rss>] are printed, once and at the end,
    exactly when the run ends well: a run that raises leaves the document
    unclosed. *)
Theorem document_closed_iff_ok
    (lib : Library) (archive : MailmanArchive) (mails : list Message) :
  let out := lines (printrss lib archive mails) in
  let ok := is_ok (outcome (printrss lib archive mails)) in
  (exists rest,
     out = [xml_declaration; rss_open; "<channel>";
            "<language>ja-JP</language>"] ++ rest) /\
  count_line "</channel>" out = (if ok then 1 else 0) /\
  count_line "</rss>" out = (if ok then 1 else 0) /\
  (ok = true -> exists body, out = body ++ ["</channel>"; "</rss>"]) /\
  (ok = false -> ~ In "</channel>" out /\ ~ In "</rss>" out).
Proof.
  cbn zeta.
  assert (Hcounts :
    count_line "</channel>" (lines (printrss lib archive mails)) =
      (if is_ok (outcome (printrss lib archive mails)) then 1 else 0) /\
    count_line "</rss>" (lines (printrss lib archive mails)) =
      (if is_ok (outcome (printrss lib archive mails)) then 1 else 0)).
  { rewrite printrss_parts. cbn [lines outcome fst snd].
    assert (Hh : forall l,
              In l ["<item>"; "</item>"; "</channel>"; "</rss>"] ->
              count_line l (lines (print_channel_head archive)) = 0)
      by (intros l Hl; apply (count_line_plain l _ Hl), channel_head_plain).
    destruct (mail_loop_items lib archive false mails) as (Hout & Hcnt).
    destruct (items_frame lib archive mails) as (_ & _ & _ & H4 & H5).
    cbn zeta in H4, H5.
    rewrite !count_line_app.
    rewrite !Hh by (simpl; tauto).
    destruct (outcome (print_channel_head archive)) as [[] | e];
      cbn [is_ok]; [| split; reflexivity].
    rewrite !count_line_app, !Hcnt, H4, H5 by (simpl; tauto).
    destruct (outcome (mail_loop lib archive false mails)) as [[] | e'];
      split; reflexivity. }
  destruct Hcounts as (Hch & Hrss).
  split; [| split; [exact Hch | split; [exact Hrss | split]]].
  - destruct (channel_head_first_lines archive) as (rest & Hrest).
    rewrite printrss_parts. cbn [lines fst]. rewrite Hrest.
    eexists. now rewrite <- app_assoc.
  - rewrite printrss_parts. cbn [lines outcome fst snd].
    destruct (outcome (print_channel_head archive)) as [[] | e];
      cbn [is_ok]; [| discriminate].
    destruct (outcome (mail_loop lib archive false mails)) as [[] | e'];
      cbn [is_ok]; [| discriminate].
    intros _. eexists. now rewrite app_assoc.
  - intros Hok. rewrite Hok in Hch, Hrss.
    split; now apply count_line_zero_not_in.
Qed.

(** ** Multipart messages *)

Lemma for_each_ok_all {A : Type} (body : A -> Out unit) (l : list A) (x : A) :
  is_ok (outcome (for_each body l)) = true ->
  In x l -> is_ok (outcome (body x)) = true.
Proof.
  induction l as [| y l IH]; [intros _ [] |].
  cbn [for_each]. rewrite outcome_bind.
  destruct (outcome (body y)) as [[] | e] eqn:Hy; [| discriminate].
  intros Hok [<- | Hin]; [now rewrite Hy | now apply IH].
Qed.

Lemma print_item_multipart
    (lib : Library) (archive : MailmanArchive) (mail : Message)
    (subparts : list Payload) :
  payload mail = Multipart subparts ->
  outcome (print_item lib archive mail) =
  match outcome (print_title_and_link lib archive mail) with
  | Raise e => Raise e
  | Ok _ => Raise (match subparts with [] => IndexError | _ => TypeError end)
  end.
Proof.
  intros Hp. rewrite print_item_split. cbn [outcome snd].
  unfold item_rest. rewrite outcome_bind.
  destruct (outcome (print_title_and_link lib archive mail)) as [[] | e];
    [| reflexivity].
  rewrite outcome_bind.
  rewrite when_print. cbn [outcome snd].
  rewrite out_bind_lift. unfold body_text. rewrite Hp.
  now destruct subparts.
Qed.

(** X5.  A multipart message cannot be rendered: its first sub-message is
    no string, so once its title is printed the item raises [TypeError]
    ([IndexError] when the message has no sub-message at all), and a run
    of [printrss] whose mails hold a multipart message never ends well. *)
Theorem multipart_mail_aborts
    (lib : Library) (archive : MailmanArchive) (mails : list Message)
    (mail : Message) (subparts : list Payload) :
  In mail mails ->
  payload mail = Multipart subparts ->
  is_ok (outcome (printrss lib archive mails)) = false /\
  (outcome (print_title_and_link lib archive mail) = Ok tt ->
   outcome (print_item lib archive mail) =
     Raise (match subparts with [] => IndexError | _ => TypeError end)).
Proof.
  intros Hin Hp. pose proof (print_item_multipart lib archive mail _ Hp) as Hi.
  split; [| intros Ht; now rewrite Ht in Hi].
  rewrite printrss_parts. cbn [outcome snd].
  destruct (outcome (print_channel_head archive)) as [[] | e]; [| reflexivity].
  rewrite (proj1 (mail_loop_items lib archive false mails)).
  destruct (is_ok (outcome (for_each (print_item lib archive) mails)))
    eqn:Hok; [| reflexivity].
  pose proof (for_each_ok_all _ _ _ Hok Hin) as Hm. rewrite Hi in Hm.
  now destruct (outcome (print_title_and_link lib archive mail)).
Qed.

Lemma multipart_mail_witness :
  payload {| date := None; from := None; subject := Some "photos";
             message_id := None;
             payload := Multipart [Text "see attachment"] |} =
    Multipart [Text "see attachment"] /\
  printrss Example.lib (Example.archive "Dev")
    [{| date := None; from := None; subject := Some "photos";
        message_id := None; payload := Multipart [Text "see attachment"] |}] =
  ([xml_declaration; rss_open; "<channel>"; "<language>ja-JP</language>";
    "<title>Dev</title>"; "<description>Dev</description>";
    "<link>http://lists.example.org/pipermail/dev/</link>";
    "<pubDate>Wed, 04 Nov 2026 09:00:00 -0000</pubDate>";
    "<item>"; "<title>photos</title>"], Raise TypeError) /\
  is_ok (outcome
           (printrss Example.lib (Example.archive "Dev")
              [{| date := None; from := None; subject := Some "photos";
                  message_id := None;
                  payload := Multipart [Text "see attachment"] |}])) = false.
Proof.
  split; [reflexivity |]. split; [reflexivity |].
  apply (multipart_mail_aborts Example.lib (Example.archive "Dev")
           [{| date := None; from := None; subject := Some "photos";
               message_id := None;
               payload := Multipart [Text "see attachment"] |}]
           {| date := None; from := None; subject := Some "photos";
              message_id := None;
              payload := Multipart [Text "see attachment"] |}
           [Text "see attachment"] (or_introl eq_refl) eq_refl).
Defined.

(** ** [get_part_field] *)

Lemma scan_lines_None (ls : list string) (name : string) :
  scan_lines ls name = Ok None <->
  Forall (fun l => startswith (lower l) name = false) ls.
Proof.
  induction ls as [| l ls IH]; cbn [scan_lines].
  - split; [constructor | reflexivity].
  - destruct (startswith (lower l) name) eqn:Hl.
    + split.
      * destruct (split_colon_once l) as [| a [| b t]]; discriminate.
      * intros H. apply Forall_cons in H as [H _]. congruence.
    + rewrite IH. split.
      * intros H. now constructor.
      * intros H. now apply Forall_cons in H as [_ H].
Qed.

Lemma scan_lines_Raise (ls : list string) (name : string) (e : exn) :
  scan_lines ls name = Raise e <->
  e = IndexError /\
  exists before line after,
    ls = before ++ line :: after /\
    Forall (fun l => startswith (lower l) name = false) before /\
    startswith (lower line) name = true /\
    all_chars is_not_colon line = true.
Proof.
  induction ls as [| l ls IH]; cbn [scan_lines].
  - split; [discriminate |].
    intros (_ & before & line & after & H & _). now destruct before.
  - destruct (startswith (lower l) name) eqn:Hl.
    + destruct (split_colon_once_spec l)
        as [[Hs Hall] | (key & rest & Hs & Hline & Hall)]; rewrite Hs.
      * split.
        -- intros [= <-]. split; [reflexivity |].
           exists [], l, ls. repeat split; auto.
        -- now intros (-> & _).
      * split; [discriminate |].
        intros (_ & before & line & after & Hls & Hb & Hstart & Hnc).
        destruct before as [| b before]; simplify_eq/=.
        -- assert (Hc : forall k, all_chars is_not_colon (k +:+ ":" +:+ rest) = false).
           { clear. induction k as [| x k IHk]; [reflexivity |].
             rewrite append_cons. cbn [all_chars]. rewrite IHk.
             apply andb_false_r. }
           now rewrite Hc in Hnc.
        -- apply Forall_cons in Hb as [Hb _]. congruence.
    + rewrite IH. split.
      * intros (-> & before & line & after & -> & Hb & H).
        split; [reflexivity |].
        exists (l :: before), line, after.
        split; [reflexivity |]. split; [now constructor | exact H].
      * intros (-> & before & line & after & Hls & Hb & Hline & H).
        split; [reflexivity |].
        destruct before as [| b before]; simplify_eq/=.
        -- congruence.
        -- apply Forall_cons in Hb as [_ Hb].
           exists before, line, after. auto.
Qed.

(** X6.  [get_part_field] returns [None] exactly when no line of the
    part starts, in lower case, with the label.  It raises exactly when
    the first such line holds no colon, and then the exception is
    [IndexError]. *)
Theorem get_part_field_missing_or_malformed (part name : string) :
  (get_part_field part name = Ok None <->
   Forall (fun l => startswith (lower l) name = false) (readlines part)) /\
  (forall e,
     get_part_field part name = Raise e <->
     e = IndexError /\
     exists before line after,
       readlines part = before ++ line :: after /\
       Forall (fun l => startswith (lower l) name = false) before /\
       startswith (lower line) name = true /\
       all_chars is_not_colon line = true).
Proof.
  split; [apply scan_lines_None | intros e; apply scan_lines_Raise].
Qed.

(** Two mails rendered without exception, for X3 and X4. *)
Lemma items_are_balanced_witness :
  outcome (printrss Example.lib (Example.archive "Dev")
             [Example.titled "plain"; Example.dated "hello"]) = Ok tt /\
  count_line "<item>"
    (lines (printrss Example.lib (Example.archive "Dev")
              [Example.titled "plain"; Example.dated "hello"])) = 2 /\
  count_line "</item>"
    (lines (printrss Example.lib (Example.archive "Dev")
              [Example.titled "plain"; Example.dated "hello"])) = 2.
Proof.
  split; [reflexivity |].
  apply (items_are_balanced Example.lib (Example.archive "Dev")
           [Example.titled "plain"; Example.dated "hello"]).
  reflexivity.
Defined.

Lemma document_closed_witness :
  is_ok (outcome (printrss Example.lib (Example.archive "Dev")
                    [Example.titled "plain"])) = true /\
  (exists body,
     lines (printrss Example.lib (Example.archive "Dev")
              [Example.titled "plain"]) =
     body ++ ["</channel>"; "</rss>"]) /\
  is_ok (outcome
           (printrss Example.lib
              {| archive_url := Example.base; _soup := Example.untitled_page |}
              [Example.titled "plain"])) = false /\
  ~ In "</rss>"
      (lines (printrss Example.lib
                {| archive_url := Example.base;
                   _soup := Example.untitled_page |}
                [Example.titled "plain"])).
Proof.
  split; [reflexivity |]. split.
  - apply (document_closed_iff_ok Example.lib (Example.archive "Dev")
             [Example.titled "plain"]). reflexivity.
  - split; [reflexivity |].
    apply (document_closed_iff_ok Example.lib
             {| archive_url := Example.base; _soup := Example.untitled_page |}
             [Example.titled "plain"]). reflexivity.
Defined.

Lemma get_part_field_witness :
  readlines ("Typewriter attached" +:+ NL +:+ "Type: image/png") =
    [] ++ ("Typewriter attached" +:+ NL) :: ["Type: image/png"] /\
  get_part_field ("Typewriter attached" +:+ NL +:+ "Type: image/png") "type" =
    Raise IndexError /\
  get_part_field "Name: x.png" "type" = Ok None.
Proof.
  split; [reflexivity |]. split.
  - apply (get_part_field_missing_or_malformed
             ("Typewriter attached" +:+ NL +:+ "Type: image/png") "type").
    split; [reflexivity |].
    exists [], ("Typewriter attached" +:+ NL), ["Type: image/png"].
    repeat split. constructor.
  - apply (get_part_field_missing_or_malformed "Name: x.png" "type").
    repeat constructor.
Defined.

Lemma lower_char_not_upper (c : ascii) : is_upper (lower_char c) = false.
Proof. destruct c as [[] [] [] [] [] [] [] []]; reflexivity. Qed.

Lemma all_chars_append (p : ascii -> bool) (a b : string) :
  all_chars p (a +:+ b) = all_chars p a && all_chars p b.
Proof.
  induction a as [| x a IH]; [reflexivity |].
  rewrite append_cons. cbn [all_chars]. now rewrite IH, andb_assoc.
Qed.

Lemma lower_no_upper (s : string) : all_chars is_not_upper (lower s) = true.
Proof.
  induction s as [| c s IH]; [reflexivity |].
  cbn [lower all_chars]. unfold is_not_upper at 1.
  now rewrite lower_char_not_upper, IH.
Qed.

Lemma prefix_true (p s : string) :
  String.prefix p s = true -> exists r, s = p +:+ r.
Proof.
  revert s. induction p as [| c p IH]; intros s H; [now exists s |].
  destruct s as [| x s]; [discriminate |]. cbn [String.prefix] in H.
  destruct (Ascii.ascii_dec c x) as [<- |]; [| discriminate].
  destruct (IH s H) as (r & ->). now exists r.
Qed.

(** X7.  The label must be given in lower case: a label with an
    upper-case letter is never found, whatever the part holds, because
    the lines are compared in lower case. *)
Theorem get_part_field_upper_case_label (part name : string) :
  all_chars is_not_upper name = false ->
  get_part_field part name = Ok None.
Proof.
  intros Hname. apply scan_lines_None.
  apply List.Forall_forall. intros l _.
  destruct (startswith (lower l) name) eqn:Hs; [| reflexivity].
  apply prefix_true in Hs as (r & Hr).
  pose proof (lower_no_upper l) as Hl.
  rewrite Hr, all_chars_append, Hname in Hl. discriminate.
Qed.

Lemma get_part_field_upper_case_witness :
  all_chars is_not_upper "Type" = false /\
  get_part_field (Example.notice "http://example.org/x.png") "type" =
    Ok (Some "image/png") /\
  get_part_field (Example.notice "http://example.org/x.png") "Type" = Ok None.
Proof.
  split; [reflexivity |]. split; [reflexivity |].
  apply (get_part_field_upper_case_label
           (Example.notice "http://example.org/x.png") "Type" eq_refl).
Defined.

Lemma lstrip_first (p : ascii -> bool) (s : string) :
  first_char_in (fun c => negb (p c)) (lstrip p s) = true.
Proof.
  induction s as [| c s IH]; [reflexivity |].
  cbn [lstrip]. destruct (p c) eqn:Hc; [exact IH |].
  cbn [first_char_in]. now rewrite Hc.
Qed.

Lemma rstrip_first (p : ascii -> bool) (s : string) :
  first_char_in (fun c => negb (p c)) s = true ->
  first_char_in (fun c => negb (p c)) (rstrip p s) = true.
Proof.
  destruct s as [| c s]; [reflexivity |].
  cbn [rstrip first_char_in]. intros Hc.
  destruct (rstrip p s); [| exact Hc].
  destruct (p c) eqn:E; [discriminate Hc |].
  cbn [first_char_in]. now rewrite E.
Qed.

Lemma rstrip_last (p : ascii -> bool) (s : string) :
  last_char_in (fun c => negb (p c)) (rstrip p s) = true.
Proof.
  unfold last_char_in. induction s as [| c s IH]; [reflexivity |].
  cbn [rstrip]. destruct (rstrip p s) as [| y r] eqn:Hr.
  - destruct (p c) eqn:Hc; [reflexivity |]. cbn [last_char]. now rewrite Hc.
  - exact IH.
Qed.

(** X8.  A value found by [get_part_field] is stripped: it neither
    starts nor ends with a white-space character. *)
Theorem get_part_field_value_stripped (part name value : string) :
  get_part_field part name = Ok (Some value) ->
  first_char_in is_not_space value = true /\
  last_char_in is_not_space value = true.
Proof.
  intros H. apply get_part_field_iff in H
    as (_ & _ & _ & _ & rest & _ & _ & _ & _ & _ & ->).
  unfold strip. split.
  - apply (rstrip_first is_space), lstrip_first.
  - apply (rstrip_last is_space).
Qed.

Lemma get_part_field_value_witness :
  get_part_field ("Size:  12345 bytes  " +:+ NL) "size" =
    Ok (Some "12345 bytes") /\
  first_char_in is_not_space "12345 bytes" = true /\
  last_char_in is_not_space "12345 bytes" = true.
Proof.
  split; [reflexivity |].
  apply (get_part_field_value_stripped
           ("Size:  12345 bytes  " +:+ NL) "size" "12345 bytes" eq_refl).
Defined.

(** ** The body and its parts *)

Lemma contains_prefix (sub s : string) :
  String.prefix sub s = true -> contains sub s = true.
Proof. intros H. destruct s; cbn [contains]; now rewrite H. Qed.

Lemma contains_append_r (sub a b : string) :
  contains sub b = true -> contains sub (a +:+ b) = true.
Proof.
  intros H. induction a as [| x a IH]; [exact H |].
  rewrite append_cons. cbn [contains]. rewrite IH. apply orb_true_r.
Qed.

Lemma match_next_part_contains (s r : string) :
  match_next_part s = Some r -> contains "next part" s = true.
Proof.
  unfold match_next_part.
  pose proof (span_spec is_dash s) as (Hs & _).
  destruct (span is_dash s) as [d1 r1]. cbn [fst snd] in Hs.
  pose proof (span_spec is_space r1) as (Hr1 & _).
  destruct (span is_space r1) as [w1 r2]. cbn [fst snd] in Hr1.
  destruct (nonempty d1 && nonempty w1 && String.prefix "next part" r2)
    eqn:Hc; [| discriminate].
  intros _. apply andb_true_iff in Hc as [_ Hp].
  rewrite Hs, Hr1. now apply contains_append_r, contains_append_r, contains_prefix.
Qed.

Lemma split_from_nonempty (bol : bool) (skip : nat) (s : string) :
  split_from bol skip s <> [].
Proof.
  revert bol skip. induction s as [| c s IH]; intros bol skip; [discriminate |].
  cbn [split_from]. destruct skip as [| k]; [| apply IH].
  destruct (if bol then match_next_part (String c s) else None);
    [discriminate |].
  now destruct (split_from (Ascii.eqb c newline) 0 s).
Qed.

Lemma split_from_no_delimiter (bol : bool) (s : string) :
  contains "next part" s = false -> split_from bol 0 s = [s].
Proof.
  revert bol. induction s as [| c s IH]; intros bol H; [reflexivity |].
  assert (Hm : match_next_part (String c s) = None).
  { destruct (match_next_part (String c s)) as [r |] eqn:Hm; [| reflexivity].
    apply match_next_part_contains in Hm. congruence. }
  cbn [contains] in H. apply orb_false_iff in H as [_ H].
  cbn [split_from]. rewrite Hm.
  destruct bol; now rewrite (IH _ H).
Qed.

(** X9.  The split of a body is never empty, so [parts[0]] exists.  A
    body in which the text [next part] does not occur is one part: its
    item holds the description of the stripped body and no enclosure
    round is run. *)
Theorem body_without_delimiter (body : string) :
  split_next_part body <> [] /\
  (contains "next part" body = false ->
   split_next_part body = [body] /\
   forall lib archive mail,
     payload mail = Text body ->
     item_rest lib archive mail =
       (print_title_and_link lib archive mail ;;
        when (truthy (message_id mail))
          (print (guid_line
                    (cgi_escape (strip_angles (the (message_id mail)))))) ;;
        print (description_line (replace NL "<br/>" (strip body))) ;;
        print "</item>")%out).
Proof.
  split; [apply split_from_nonempty |].
  intros H. pose proof (split_from_no_delimiter true body H) as Hs.
  split; [exact Hs |].
  intros lib archive mail Hp. unfold item_rest, body_text.
  rewrite Hp, out_bind_lift. unfold split_next_part. rewrite Hs.
  cbn [List.map hd tl for_each]. now rewrite out_bind_ret.
Qed.

Lemma body_without_delimiter_witness :
  contains "next part" "Hello" = false /\
  print_item Example.lib (Example.archive "Dev")
    (Example.posted "[project 42] Fix bug") =
  (["<item>"; "<author>jane@example.org</author>";
    "<pubDate>Wed, 01 Apr 2020 10:00:00 +0000</pubDate>";
    "<title>[project 42] Fix bug</title>";
    "<link>http://lists.example.org/pipermail/dev/2020-April/000041.html</link>";
    guid_line "abc123@host";
    "<description><![CDATA[Hello]]></description>"; "</item>"], Ok tt).
Proof.
  split; [reflexivity |].
  rewrite print_item_split.
  destruct (body_without_delimiter "Hello") as (_ & H).
  destruct (H eq_refl) as (_ & Hi).
  rewrite (Hi Example.lib (Example.archive "Dev")
             (Example.posted "[project 42] Fix bug") eq_refl).
  reflexivity.
Defined.

(** X10.  The description is printed on one line: every line feed of the
    body has become [<br/>]. *)
Theorem description_is_one_line (body : string) :
  all_chars is_not_newline
    (description_line
       (replace NL "<br/>"
          (hd EmptyString (List.map strip (split_next_part body))))) = true.
Proof.
  unfold description_line.
  rewrite !all_chars_append. apply andb_true_iff. split; [reflexivity |].
  apply andb_true_iff. split; [| reflexivity].
  generalize (hd EmptyString (List.map strip (split_next_part body))).
  intros s. unfold NL. rewrite replace_char.
  induction s as [| c s IH]; [reflexivity |].
  cbn [subst_chars]. rewrite all_chars_append, IH, andb_true_r.
  unfold is_not_newline.
  destruct (Ascii.eqb c newline) eqn:Hc; [reflexivity |].
  cbn [all_chars]. now rewrite Hc.
Qed.

(** ** The author and the guid *)

Lemma replace_from_head (p s : string) :
  all_chars (fun c => negb (Ascii.eqb c "@")) p = true ->
  String.prefix p (replace_from " at " "@" 0 s) = true ->
  String.prefix p s = true.
Proof.
  revert s. induction p as [| x p IH]; intros s Hp H; [apply prefix_empty |].
  cbn [all_chars] in Hp. apply andb_true_iff in Hp as [Hx Hp].
  destruct s as [| c s]; [discriminate H |].
  cbn [replace_from] in H.
  destruct (String.prefix " at " (String c s)).
  - change ("@" +:+ ?r) with (String "@" r) in H. cbn [String.prefix] in H.
    destruct (Ascii.ascii_dec x "@") as [-> |]; [discriminate Hx | discriminate H].
  - cbn [String.prefix] in H |- *.
    destruct (Ascii.ascii_dec x c); [now apply IH | discriminate H].
Qed.

Lemma replace_from_at_gone (skip : nat) (s : string) :
  contains " at " (replace_from " at " "@" skip s) = false.
Proof.
  revert skip. induction s as [| c s IH]; intros skip; [reflexivity |].
  cbn [replace_from]. destruct skip as [| k]; [| apply IH].
  destruct (String.prefix " at " (String c s)) eqn:Hp.
  - change ("@" +:+ ?r) with (String "@" r). cbn [contains].
    rewrite IH. reflexivity.
  - cbn [contains]. rewrite IH, orb_false_r.
    destruct (String.prefix " at " (String c (replace_from " at " "@" 0 s)))
      eqn:Hq; [| reflexivity].
    assert (Hr : replace_from " at " "@" 0 (String c s) =
                 String c (replace_from " at " "@" 0 s))
      by (cbn [replace_from]; now rewrite Hp).
    rewrite <- Hr in Hq. apply replace_from_head in Hq; [congruence | reflexivity].
Qed.

Lemma replace_from_absent (old new s : string) :
  contains old s = false -> replace_from old new 0 s = s.
Proof.
  induction s as [| c s IH]; [reflexivity |].
  cbn [contains replace_from]. intros H.
  apply orb_false_iff in H as [Hp H]. cbn [String.prefix] in Hp |- *.
  rewrite Hp. now rewrite IH.
Qed.

(** X11.  After [author.replace(" at ", "@")] the text [ at ] occurs
    nowhere in the author, and an author without it is unchanged. *)
Theorem author_at_replaced (author : string) :
  contains " at " (replace " at " "@" author) = false /\
  (contains " at " author = false -> replace " at " "@" author = author).
Proof.
  split; [apply replace_from_at_gone | apply replace_from_absent].
Qed.

Lemma author_at_replaced_witness :
  contains " at " "jane@example.org" = false /\
  replace " at " "@" "jane@example.org" = "jane@example.org" /\
  replace " at " "@" "jane at example.org" = "jane@example.org".
Proof.
  split; [reflexivity |]. split; [| reflexivity].
  apply (author_at_replaced "jane@example.org"). reflexivity.
Defined.

Lemma rstrip_all (p : ascii -> bool) (t : string) :
  all_chars p t = true -> rstrip p t = EmptyString.
Proof.
  induction t as [| c t IH]; [reflexivity |].
  cbn [all_chars rstrip]. intros H. apply andb_true_iff in H as [Hc H].
  now rewrite (IH H), Hc.
Qed.

Lemma rstrip_append (p : ascii -> bool) (s t : string) :
  all_chars p t = true ->
  last_char_in (fun c => negb (p c)) s = true ->
  rstrip p (s +:+ t) = s.
Proof.
  intros Ht. unfold last_char_in.
  induction s as [| c s IH]; [intros _; now apply rstrip_all |].
  rewrite append_cons. cbn [rstrip last_char].
  destruct s as [| y s].
  - rewrite append_nil_l, (rstrip_all p t Ht). intros Hc.
    apply negb_true_iff in Hc. now rewrite Hc.
  - intros H. now rewrite (IH H).
Qed.

(** X12.  The text of the guid, [guid.strip("<>")], neither starts nor
    ends with an angle bracket; a message id written between one pair of
    angle brackets loses exactly that pair. *)
Theorem guid_angles_stripped (guid : string) :
  first_char_in is_not_angle (strip_angles guid) = true /\
  last_char_in is_not_angle (strip_angles guid) = true /\
  (first_char_in is_not_angle guid = true ->
   last_char_in is_not_angle guid = true ->
   strip_angles ("<" +:+ guid +:+ ">") = guid).
Proof.
  unfold strip_angles. split; [| split].
  - apply (rstrip_first is_angle), lstrip_first.
  - apply (rstrip_last is_angle).
  - intros Hf Hl. change ("<" +:+ ?r) with (String "<" r).
    cbn [lstrip]. change (is_angle "<") with true. cbn iota.
    destruct guid as [| c guid]; [reflexivity |].
    rewrite append_cons. cbn [lstrip].
    cbn [first_char_in] in Hf. unfold is_not_angle in Hf.
    apply negb_true_iff in Hf. rewrite Hf.
    rewrite <- append_cons. now apply rstrip_append.
Qed.

Lemma guid_angles_witness :
  first_char_in is_not_angle "abc123@host" = true /\
  last_char_in is_not_angle "abc123@host" = true /\
  strip_angles "<abc123@host>" = "abc123@host".
Proof.
  split; [reflexivity |]. split; [reflexivity |].
  apply (guid_angles_stripped "abc123@host"); reflexivity.
Defined.

(** ** [get_month] and the temporary directory *)

(** X13.  [get_month] opens exactly the URL it is given and never
    touches a file that existed before: whatever happens, every name
    other than the new one is mapped as before.  When it returns a
    mailbox, and when the fetch itself fails, the temporary directory is
    exactly as before. *)
Theorem get_month_keeps_files (lib : Library) (url : string) (w : World) :
  fetched (fst (get_month lib url w)) = fetched w ++ [url] /\
  (forall name,
     name <> fresh (dom (files w)) ->
     files (fst (get_month lib url w)) !! name = files w !! name) /\
  (forall name content,
     files w !! name = Some content ->
     files (fst (get_month lib url w)) !! name = Some content) /\
  (is_ok (snd (get_month lib url w)) = true ->
   files (fst (get_month lib url w)) = files w) /\
  (forall e,
     urlopen_read lib url = Raise e ->
     files (fst (get_month lib url w)) = files w).
Proof.
  assert (Hfresh : files w !! fresh (dom (files w)) = None)
    by apply not_elem_of_dom, is_fresh.
  assert (Hcases :
    fetched (fst (get_month lib url w)) = fetched w ++ [url] /\
    (forall name,
       name <> fresh (dom (files w)) ->
       files (fst (get_month lib url w)) !! name = files w !! name) /\
    (is_ok (snd (get_month lib url w)) = true ->
     files (fst (get_month lib url w)) = files w) /\
    (forall e,
       urlopen_read lib url = Raise e ->
       files (fst (get_month lib url w)) = files w)).
  { destruct (urlopen_read lib url) as [data_gz | e] eqn:Hf.
    - destruct (gunzip lib data_gz) as [data | e] eqn:Hg.
      + destruct (mbox_open lib data) as [mbox | e] eqn:Hm.
        * rewrite (get_month_ok _ _ _ _ _ _ Hf Hg Hm). cbn.
          repeat split; try reflexivity; try discriminate.
        * rewrite (get_month_mbox_fails _ _ _ _ _ _ Hf Hg Hm). cbn.
          repeat split; try discriminate.
          intros name Hne. now rewrite lookup_insert_ne.
      + rewrite (get_month_gunzip_fails _ _ _ _ _ Hf Hg). cbn.
        repeat split; try discriminate.
        intros name Hne. now rewrite lookup_insert_ne.
    - rewrite (get_month_fetch_fails _ _ _ _ Hf). cbn.
      repeat split; try reflexivity; try discriminate. }
  destruct Hcases as (H1 & H2 & H3 & H4).
  repeat split; try assumption.
  intros name content Hn. rewrite H2; [exact Hn |].
  intros ->. congruence.
Qed.

Lemma get_month_keeps_files_witness :
  files {| files := {[ 0 := "notes" ]}; fetched := [] |} !! 0 = Some "notes" /\
  files (fst (get_month Example.lib Example.broken_month
                {| files := {[ 0 := "notes" ]}; fetched := [] |})) !! 0 =
    Some "notes" /\
  is_ok (snd (get_month Example.lib Example.month1 Example.world0)) = true /\
  files (fst (get_month Example.lib Example.month1 Example.world0)) = ∅.
Proof.
  split; [reflexivity |]. split.
  - apply (get_month_keeps_files Example.lib Example.broken_month
             {| files := {[ 0 := "notes" ]}; fetched := [] |}).
    reflexivity.
  - split; [reflexivity |].
    apply (get_month_keeps_files Example.lib Example.month1 Example.world0).
    reflexivity.
Defined.

(** ** More on the selection *)

Section SelectionMore.

Variable lib : Library.
Variable encoding : string.
Variable count : Z.

Lemma month_loop_step_fails (url : string) (rest : list string)
    (mails : list Message) (e : exn) (w : World) :
  month_of lib encoding url = Raise e ->
  snd (month_loop lib encoding count (url :: rest) mails w) = Raise e /\
  fetched (fst (month_loop lib encoding count (url :: rest) mails w)) =
    fetched w ++ [url].
Proof.
  unfold month_of. intros H.
  assert (Hex : exists w',
            month_loop lib encoding count (url :: rest) mails w =
              (w', Raise e) /\
            fetched w' = fetched w ++ [url]).
  { cbn [month_loop]. unfold io_bind, io_lift.
    destruct (urlopen_read lib url) as [data_gz | e1] eqn:Hf.
    - destruct (gunzip lib data_gz) as [data | e2] eqn:Hg.
      + destruct (mbox_open lib data) as [mbox | e3] eqn:Hm.
        * rewrite (get_month_ok _ _ _ _ _ _ Hf Hg Hm), H. eauto.
        * rewrite (get_month_mbox_fails _ _ _ _ _ _ Hf Hg Hm).
          injection H as <-. eauto.
      + rewrite (get_month_gunzip_fails _ _ _ _ _ Hf Hg).
        injection H as <-. eauto.
    - rewrite (get_month_fetch_fails _ _ _ _ Hf).
      injection H as <-. eauto. }
  destruct Hex as (w' & -> & Hw). split; [reflexivity | exact Hw].
Qed.

Lemma month_loop_reaches_failure (before : list string) :
  forall (loaded : list (list Message)) (url : string) (rest : list string)
         (mails : list Message) (e : exn) (w : World),
    map_result (month_of lib encoding) before = Ok loaded ->
    (Z.of_nat (length (mails ++ newest_first loaded)) < count)%Z ->
    month_of lib encoding url = Raise e ->
    snd (month_loop lib encoding count (before ++ url :: rest) mails w) =
      Raise e /\
    fetched (fst (month_loop lib encoding count (before ++ url :: rest) mails w)) =
      fetched w ++ before ++ [url].
Proof.
  induction before as [| u before IH];
    intros loaded url rest mails e w Hl Hlt He.
  - now apply month_loop_step_fails.
  - apply map_result_cons in Hl as (m & loaded' & Hm & Hl & ->).
    rewrite newest_first_cons, app_assoc in Hlt.
    cbn [app]. rewrite (month_loop_step _ _ _ _ _ _ _ _ Hm).
    rewrite Z.geb_leb.
    destruct (Z.leb_spec count (Z.of_nat (length (mails ++ rev m))))
      as [Hge | _].
    + rewrite length_app in Hlt. lia.
    + destruct (IH loaded' url rest (mails ++ rev m) e
                  (fetched_more [u] w) Hl Hlt He) as (H1 & H2).
      split; [exact H1 |]. rewrite H2. cbn. now rewrite <- app_assoc.
Qed.

Lemma month_loop_ignores_rest (before : list string) :
  forall (loaded : list (list Message)) (rest : list string)
         (mails : list Message) (w : World),
    before <> [] ->
    map_result (month_of lib encoding) before = Ok loaded ->
    (count <= Z.of_nat (length (mails ++ newest_first loaded)))%Z ->
    month_loop lib encoding count (before ++ rest) mails w =
    month_loop lib encoding count before mails w.
Proof.
  induction before as [| u before IH]; intros loaded rest mails w Hne Hl Hge;
    [congruence |].
  apply map_result_cons in Hl as (m & loaded' & Hm & Hl & ->).
  cbn [app]. rewrite !(month_loop_step _ _ _ _ _ _ _ _ Hm).
  destruct (Z.of_nat (length (mails ++ rev m)) >=? count)%Z eqn:Ht;
    [reflexivity |].
  rewrite newest_first_cons, app_assoc in Hge.
  apply (IH loaded'); [| exact Hl | exact Hge].
  intros ->. injection Hl as <-.
  change (newest_first []) with (@nil Message) in Hge.
  rewrite app_nil_r in Hge. rewrite Z.geb_leb in Ht.
  apply Z.leb_gt in Ht. lia.
Qed.

End SelectionMore.

(** X14.  The first month that fails to load while fewer than [count]
    mails are collected aborts the selection: its exception escapes, no
    mail is returned, and the months after it are not opened.  One
    message that does not decode is such a failure. *)
Theorem failing_month_aborts_selection
    (lib : Library) (encoding : string) (count : Z)
    (before : list string) (loaded : list (list Message))
    (url : string) (rest : list string) (e : exn) (w : World) :
  map_result (month_of lib encoding) before = Ok loaded ->
  (Z.of_nat (length (concat loaded)) < count)%Z ->
  month_of lib encoding url = Raise e ->
  snd (select_mails lib encoding count (before ++ url :: rest) w) = Raise e /\
  fetched (fst (select_mails lib encoding count (before ++ url :: rest) w)) =
    fetched w ++ before ++ [url].
Proof.
  intros Hl Hlt He.
  destruct (month_loop_reaches_failure lib encoding count before loaded url
              rest [] e w Hl) as (H1 & H2); [| exact He |].
  - cbn [app]. now rewrite newest_first_length.
  - unfold select_mails, io_bind.
    destruct (month_loop lib encoding count (before ++ url :: rest) [] w)
      as [w' [mails | e']]; cbn [fst snd] in *; [discriminate H1 |].
    split; assumption.
Qed.

Lemma failing_month_witness :
  map_result (month_of Example.lib "ascii") [Example.month1] =
    Ok [[Example.titled "a"; Example.titled "b"; Example.titled "c"]] /\
  month_of Example.lib "ascii" Example.broken_month =
    Raise (LibraryError "gzip") /\
  snd (select_mails Example.lib "ascii" 25
         [Example.month1; Example.broken_month; Example.month2]
         Example.world0) = Raise (LibraryError "gzip").
Proof.
  split; [reflexivity |]. split; [reflexivity |].
  apply (failing_month_aborts_selection Example.lib "ascii" 25
           [Example.month1] _ Example.broken_month [Example.month2]
           (LibraryError "gzip") Example.world0 eq_refl);
    [cbn; lia | reflexivity].
Defined.

(** X15.  Once the months opened so far hold [count] mails or more, the
    months listed after them do not matter: they are not opened, and the
    selection is the same whatever they are, also when they could not be
    loaded. *)
Theorem later_months_are_irrelevant
    (lib : Library) (encoding : string) (count : Z)
    (before : list string) (loaded : list (list Message))
    (rest : list string) (w : World) :
  before <> [] ->
  map_result (month_of lib encoding) before = Ok loaded ->
  (count <= Z.of_nat (length (concat loaded)))%Z ->
  select_mails lib encoding count (before ++ rest) w =
  select_mails lib encoding count before w.
Proof.
  intros Hne Hl Hge. unfold select_mails, io_bind.
  rewrite (month_loop_ignores_rest lib encoding count before loaded rest [] w);
    [reflexivity | exact Hne | exact Hl |].
  cbn [app]. now rewrite newest_first_length.
Qed.

Lemma later_months_witness :
  map_result (month_of Example.lib "ascii") [Example.month1] =
    Ok [[Example.titled "a"; Example.titled "b"; Example.titled "c"]] /\
  select_mails Example.lib "ascii" 2
    ([Example.month1] ++ [Example.broken_month]) Example.world0 =
  select_mails Example.lib "ascii" 2 [Example.month1] Example.world0.
Proof.
  split; [reflexivity |].
  apply (later_months_are_irrelevant Example.lib "ascii" 2 [Example.month1]
           [[Example.titled "a"; Example.titled "b"; Example.titled "c"]]
           [Example.broken_month] Example.world0);
    [discriminate | reflexivity | cbn; lia].
Defined.

(** ** [main] *)

Lemma archive_init_ok (lib : Library) (url : string) (w w1 : World)
    (archive : MailmanArchive) :
  MailmanArchive_init lib url w = (w1, Ok archive) ->
  w1 = fetched_more [archive_url archive] w.
Proof.
  unfold MailmanArchive_init, io_bind, io_lift, fetch, io_ret.
  destruct (last_char url) as [c | e]; [| discriminate].
  destruct (urlopen_read lib
              (if negb (Ascii.eqb c "/") then url +:+ "/" else url));
    [| discriminate].
  now intros [= <- <-].
Qed.

(** X16.  [main] leaves through [sys.exit] in three ways only.  When
    [parse_args] exits, [main] ends there, with the parser's code and
    output and without opening any URL.  When the arguments are parsed,
    [main] exits in two cases, both with code 1: when the number of
    positional arguments is not one, after printing the help and without
    opening any URL; and when the index page holds no month link, after
    printing the error message, with the index page as the only URL
    opened. *)
Theorem main_exit_paths
    (lib : Library) (help : string) (parsed : Parse) (w : World) :
  (forall code printed,
     parsed = ParserExit code printed ->
     main lib help parsed w = (w, (printed, Exited code))) /\
  (forall count encoding args,
     parsed = Parsed count encoding args ->
     length args <> 1 ->
     main lib help parsed w = (w, ([help], Exited 1))) /\
  (forall count encoding url w1 archive,
     parsed = Parsed count encoding [url] ->
     MailmanArchive_init lib url w = (w1, Ok archive) ->
     get_month_archives archive = [] ->
     main lib help parsed w = (w1, ([no_months_message], Exited 1)) /\
     fetched w1 = fetched w ++ [archive_url archive]) /\
  (forall code,
     snd (snd (main lib help parsed w)) = Exited code ->
     (exists printed, parsed = ParserExit code printed) \/
     (code = 1%Z /\
      exists count encoding args,
        parsed = Parsed count encoding args /\
        (length args <> 1 \/
         exists url w1 archive,
           args = [url] /\
           MailmanArchive_init lib url w = (w1, Ok archive) /\
           get_month_archives archive = []))).
Proof.
  split; [| split; [| split]].
  - now intros code printed ->.
  - intros count encoding args -> Hlen. destruct args as [| url [| url' args]];
      [reflexivity | now elim Hlen | reflexivity].
  - intros count encoding url w1 archive -> Hinit Hmonths. unfold main.
    rewrite Hinit, Hmonths. split; [reflexivity |].
    now rewrite (archive_init_ok _ _ _ _ _ Hinit).
  - intros code.
    destruct parsed as [count encoding args | code' printed];
      [| intros [= <-]; left; now exists printed].
    intros H. right.
    destruct args as [| url [| url' args]].
    + injection H as <-. split; [reflexivity |].
      exists count, encoding, []. split; [reflexivity | left; discriminate].
    + unfold main in H.
      destruct (MailmanArchive_init lib url w) as [w1 [archive | e]] eqn:Hinit;
        [| discriminate].
      destruct (get_month_archives archive) as [| m months] eqn:Hmonths.
      * injection H as <-. split; [reflexivity |].
        exists count, encoding, [url]. split; [reflexivity |]. right.
        exists url, w1, archive. repeat split; assumption.
      * destruct (select_mails lib encoding count (m :: months) w1)
          as [w2 [mails | e]]; [| discriminate].
        cbn [snd] in H. now destruct (outcome (printrss lib archive mails)).
    + injection H as <-. split; [reflexivity |].
      exists count, encoding, (url :: url' :: args).
      split; [reflexivity | left; discriminate].
Qed.

(** A command line that [optparse] refuses, one with two arguments, and
    an index page without month links. *)
Lemma main_exit_witness :
  main Example.lib "usage" (ParserExit 2 []) Example.world0 =
    (Example.world0, ([], Exited 2)) /\
  length ["a"; "b"] <> 1 /\
  main Example.lib "usage: mailman_rss.py [options] <archive url>"
    (Parsed 25 "ascii" ["a"; "b"]) Example.world0 =
  (Example.world0,
   (["usage: mailman_rss.py [options] <archive url>"], Exited 1)) /\
  snd (main Example.lib "usage" (Parsed 25 "ascii" [Example.base])
         Example.world0) =
  ([no_months_message], Exited 1).
Proof.
  split; [| split; [discriminate | split]].
  - apply (main_exit_paths Example.lib "usage" (ParserExit 2 [])
             Example.world0). reflexivity.
  - destruct (main_exit_paths Example.lib
                "usage: mailman_rss.py [options] <archive url>"
                (Parsed 25 "ascii" ["a"; "b"]) Example.world0)
      as (_ & H & _).
    apply (H 25%Z "ascii" ["a"; "b"] eq_refl). discriminate.
  - destruct (main_exit_paths Example.lib "usage"
                (Parsed 25 "ascii" [Example.base]) Example.world0)
      as (_ & _ & H & _).
    destruct (H 25%Z "ascii" Example.base
                (fetched_more [Example.base] Example.world0)
                {| archive_url := Example.base;
                   _soup := Tag "[document]" [] [] |}
                eq_refl eq_refl eq_refl) as (-> & _).
    reflexivity.
Defined.

Lemma printrss_item_count
    (lib : Library) (archive : MailmanArchive) (mails : list Message) :
  count_line "<item>" (lines (printrss lib archive mails)) <= length mails /\
  (is_ok (outcome (printrss lib archive mails)) = true ->
   count_line "<item>" (lines (printrss lib archive mails)) = length mails).
Proof.
  rewrite printrss_parts. cbn [lines outcome fst snd].
  assert (Hh : count_line "<item>" (lines (print_channel_head archive)) = 0)
    by (apply count_line_plain; [simpl; tauto | apply channel_head_plain]).
  destruct (mail_loop_items lib archive false mails) as (Hout & Hcnt).
  destruct (items_frame lib archive mails) as (_ & H2 & H3 & _).
  cbn zeta in H2, H3.
  rewrite count_line_app, Hh.
  destruct (outcome (print_channel_head archive)) as [[] | e]; cbn [is_ok].
  - rewrite count_line_app, Hcnt, Hout by (simpl; tauto).
    destruct (outcome (for_each (print_item lib archive) mails))
      as [[] | e']; cbn [is_ok] in *.
    + change (count_line "<item>" ["</channel>"; "</rss>"]) with 0.
      specialize (H3 eq_refl). split; intros; lia.
    + change (count_line "<item>" []) with 0. split; [lia | discriminate].
  - change (count_line "<item>" []) with 0. split; [cbn; lia | discriminate].
Qed.

(** X17.  End to end: when the command line is parsed with one argument,
    the archive opens, its index lists months and these load, [main] with
    [count >= 0] never leaves through [sys.exit]; the feed it writes holds
    at most [min(count, number of messages)] items, and exactly that many
    when it returns. *)
Theorem main_feed_size
    (lib : Library) (help : string) (count : Z) (encoding url : string)
    (w w1 : World) (archive : MailmanArchive) (loaded : list (list Message)) :
  MailmanArchive_init lib url w = (w1, Ok archive) ->
  get_month_archives archive <> [] ->
  map_result (month_of lib encoding) (get_month_archives archive) = Ok loaded ->
  (0 <= count)%Z ->
  let run := main lib help (Parsed count encoding [url]) w in
  (forall code, snd (snd run) <> Exited code) /\
  count_line "<item>" (fst (snd run)) <=
    Nat.min (Z.to_nat count) (length (concat loaded)) /\
  (snd (snd run) = Returned ->
   count_line "<item>" (fst (snd run)) =
     Nat.min (Z.to_nat count) (length (concat loaded))).
Proof.
  intros Hinit Hne Hl Hc. cbn zeta. unfold main. rewrite Hinit.
  destruct (get_month_archives archive) as [| m months] eqn:Hm;
    [congruence |].
  destruct (select_mails_spec lib encoding count (m :: months) loaded w1 Hl)
    as (k & Heq & _ & _ & _ & _ & Htrim).
  rewrite Heq, (Htrim Hc). cbn [fst snd].
  set (mails := take (Z.to_nat count) (newest_first loaded)).
  assert (Hlen : length mails =
                 Nat.min (Z.to_nat count) (length (concat loaded)))
    by (unfold mails; now rewrite length_take, newest_first_length).
  destruct (printrss_item_count lib archive mails) as (Hle & Heq').
  rewrite <- Hlen. split; [| split].
  - intros code. now destruct (outcome (printrss lib archive mails)).
  - exact Hle.
  - destruct (outcome (printrss lib archive mails)) as [[] | e];
      [intros _; now apply Heq' | discriminate].
Qed.

Lemma main_feed_size_witness :
  map_result (month_of listing_lib "ascii")
    [Example.month1; Example.month2] =
    Ok [[Example.titled "a"; Example.titled "b"; Example.titled "c"];
        [Example.titled "d"; Example.titled "e"]] /\
  snd (snd (main listing_lib "usage"
              (Parsed 4 "ascii" ["http://lists.example.org/pipermail/dev"])
              Example.world0)) =
    Returned /\
  count_line "<item>"
    (fst (snd (main listing_lib "usage"
                 (Parsed 4 "ascii" ["http://lists.example.org/pipermail/dev"])
                 Example.world0))) =
    4.
Proof.
  split; [reflexivity |]. split; [reflexivity |].
  apply (main_feed_size listing_lib "usage" 4 "ascii"
           "http://lists.example.org/pipermail/dev" Example.world0
           (fetched_more [Example.base] Example.world0)
           {| archive_url := Example.base;
              _soup := index_page "Dev list"
                         ["2020-April.txt"; "2020-March.txt.gz";
                          "listinfo.html"] |}
           [[Example.titled "a"; Example.titled "b"; Example.titled "c"];
            [Example.titled "d"; Example.titled "e"]]);
    try reflexivity; [discriminate | lia].
Defined.

(** X18.  The trailing slash of the archive URL is optional: a URL
    without it builds the same archive, by the same fetch, as the URL
    with it. *)
Theorem archive_trailing_slash_optional
    (lib : Library) (url : string) (w : World) :
  url <> EmptyString ->
  last_char_in (fun c => negb (Ascii.eqb c "/")) url = true ->
  MailmanArchive_init lib url w = MailmanArchive_init lib (url +:+ "/") w.
Proof.
  intros Hne Hlast. unfold last_char_in in Hlast.
  destruct (last_char_nonempty url Hne) as (c & Hc). rewrite Hc in Hlast.
  unfold MailmanArchive_init, io_bind, io_lift.
  rewrite Hc, (last_char_append url "/"), Hlast.
  change (negb (Ascii.eqb "/" "/")) with false. reflexivity.
Qed.

Lemma archive_trailing_slash_witness :
  "http://lists.example.org/pipermail/dev" <> EmptyString /\
  MailmanArchive_init Example.lib "http://lists.example.org/pipermail/dev"
    Example.world0 =
  MailmanArchive_init Example.lib "http://lists.example.org/pipermail/dev/"
    Example.world0.
Proof.
  split; [discriminate |].
  apply (archive_trailing_slash_optional Example.lib
           "http://lists.example.org/pipermail/dev" Example.world0);
    [discriminate | reflexivity].
Defined.

(** ** The size of the selection *)

(** X19.  When the months load and [count >= 0], the selection returns a
    list whose length is the minimum of [count] and the number of
    messages of all months, hence at most [count]; for [count = 0] it is
    empty. *)
Theorem selection_length
    (lib : Library) (encoding : string) (count : Z) (months : list string)
    (loaded : list (list Message)) (w : World) :
  map_result (month_of lib encoding) months = Ok loaded ->
  (0 <= count)%Z ->
  exists w' mails,
    select_mails lib encoding count months w = (w', Ok mails) /\
    length mails = Nat.min (Z.to_nat count) (length (concat loaded)) /\
    (Z.of_nat (length mails) <= count)%Z /\
    (count = 0%Z -> mails = []).
Proof.
  intros Hl Hc.
  destruct (select_mails_spec lib encoding count months loaded w Hl)
    as (k & Heq & _ & _ & _ & _ & Htrim).
  eexists _, _. split; [exact Heq |].
  rewrite (Htrim Hc). split; [| split].
  - now rewrite length_take, newest_first_length.
  - rewrite length_take. lia.
  - intros ->. apply take_0.
Qed.

Lemma selection_length_witness :
  map_result (month_of Example.lib "ascii")
    [Example.month1; Example.month2; Example.month3] =
    Ok [[Example.titled "a"; Example.titled "b"; Example.titled "c"];
        [Example.titled "d"; Example.titled "e"]; [Example.titled "f"]] /\
  exists w' mails,
    select_mails Example.lib "ascii" 4
      [Example.month1; Example.month2; Example.month3] Example.world0 =
      (w', Ok mails) /\
    length mails = 4.
Proof.
  split; [reflexivity |].
  destruct (selection_length Example.lib "ascii" 4
              [Example.month1; Example.month2; Example.month3]
              _ Example.world0 eq_refl ltac:(lia))
    as (w' & mails & Heq & Hlen & _).
  exists w', mails. split; [exact Heq | exact Hlen].
Defined.
